(** * pandas_access: schema scraping, type mapping and table reading

    A shallow embedding of [pandas_access/__init__.py].

    Python text ([str]) is modelled as a list of one-byte code points
    (code points 0..255); the character classes below are those of Python 3
    for that range.  Byte strings ([bytes]) are lists of [Byte.byte].  A
    Python [dict] is an association list in insertion order.  The external
    collaborators (the mdb-tools executables, the decoder, [pd.read_csv])
    are parameters of the model. *)

From Stdlib Require Import List Ascii String NArith Arith Bool Lia.
From Stdlib Require Strings.Byte.
Import ListNotations.

Set Implicit Arguments.

(** ** Text *)

Definition str := list ascii.
Definition bytes := list Byte.byte.

Definition nl : ascii := "010"%char.
Definition tab : ascii := "009"%char.

(** A Python string literal. *)
Definition lit (s : string) : str := list_ascii_of_string s.

Definition str_eqb (a b : str) : bool :=
  if list_eq_dec ascii_dec a b then true else false.

Definition code (c : ascii) : N := N_of_ascii c.

Definition between (lo hi : N) (n : N) : bool := ((lo <=? n) && (n <=? hi))%N.

(** [str.isspace] on one character, which is also what [\s] matches. *)
Definition isspace (c : ascii) : bool :=
  let n := code c in
  between 9 13 n || between 28 32 n || (n =? 133)%N || (n =? 160)%N.

(** The line boundaries of [str.splitlines]. *)
Definition is_linebreak (c : ascii) : bool :=
  let n := code c in
  between 10 13 n || between 28 30 n || (n =? 133)%N.

(** What [\w] matches: an alphanumeric character or the underscore. *)
Definition is_word (c : ascii) : bool :=
  let n := code c in
  between 48 57 n || between 65 90 n || between 97 122 n || (n =? 95)%N
  || (n =? 170)%N || (n =? 178)%N || (n =? 179)%N || (n =? 181)%N
  || (n =? 185)%N || (n =? 186)%N || between 188 190 n
  || between 192 214 n || between 216 246 n || between 248 255 n.

(** [str.lower] on one character. *)
Definition lower_char (c : ascii) : ascii :=
  let n := code c in
  if between 65 90 n || between 192 214 n || between 216 222 n
  then ascii_of_N (n + 32) else c.

Definition lower (s : str) : str := map lower_char s.

(** The truth value of a string: it is not empty. *)
Definition nonempty_str (s : str) : bool :=
  match s with [] => false | _ => true end.

(** [s.startswith(p)] *)
Fixpoint startswith (s p : str) {struct p} : bool :=
  match p with
  | [] => true
  | a :: p' =>
      match s with
      | [] => false
      | b :: s' => Ascii.eqb b a && startswith s' p'
      end
  end.

(** [s.replace(',', '')] *)
Definition remove_commas (s : str) : str :=
  filter (fun c => negb (Ascii.eqb c ","%char)) s.

Fixpoint lstrip (s : str) : str :=
  match s with
  | c :: s' => if isspace c then lstrip s' else s
  | [] => []
  end.

Definition rstrip (s : str) : str := rev (lstrip (rev s)).

(** [s.strip()] *)
Definition strip (s : str) : str := rstrip (lstrip s).

(** [sep.join(parts)] *)
Fixpoint join (sep : str) (parts : list str) : str :=
  match parts with
  | [] => []
  | [p] => p
  | p :: rest => p ++ sep ++ join sep rest
  end.

(** [s.splitlines()]: [cur] holds the characters of the line being read, in
    reverse.  A carriage return followed by a line feed is one boundary; no
    line is produced for the empty remainder after the last boundary. *)
Fixpoint splitlines_from (cur : str) (s : str) : list str :=
  match s with
  | [] => match cur with [] => [] | _ => [rev cur] end
  | c :: s' =>
      if is_linebreak c then
        rev cur ::
          match s' with
          | d :: s'' =>
              if Ascii.eqb c "013"%char && Ascii.eqb d "010"%char
              then splitlines_from [] s''
              else splitlines_from [] s'
          | [] => splitlines_from [] s'
          end
      else splitlines_from (c :: cur) s'
  end.

Definition splitlines (s : str) : list str := splitlines_from [] s.

Fixpoint distinct (l : list str) : bool :=
  match l with
  | [] => true
  | x :: l' => negb (existsb (str_eqb x) l') && distinct l'
  end.

(** ** Dictionaries

    A [dict] keeps its keys in insertion order; assigning to a key that is
    present replaces the value in place. *)

Section Dict.
Variable V : Type.

Definition dict := list (str * V).

Definition keys (d : dict) : list str := map fst d.

Fixpoint dict_get (d : dict) (k : str) : option V :=
  match d with
  | [] => None
  | (k', v) :: d' => if str_eqb k' k then Some v else dict_get d' k
  end.

(** [d[k] = v] *)
Fixpoint dict_set (d : dict) (k : str) (v : V) : dict :=
  match d with
  | [] => [(k, v)]
  | (k', v') :: d' =>
      if str_eqb k' k then (k', v) :: d' else (k', v') :: dict_set d' k v
  end.

(** [d.update(other)] *)
Definition dict_update (d other : dict) : dict :=
  fold_left (fun acc kv => dict_set acc (fst kv) (snd kv)) other d.

(** [d != {}] *)
Definition nonempty (d : dict) : bool :=
  match d with [] => false | _ => true end.

(** [k in d] *)
Definition dict_has (d : dict) (k : str) : bool :=
  match dict_get d k with Some _ => true | None => false end.
End Dict.

(** The invariant of a Python dict: no key occurs twice. *)
Definition is_dict (V : Type) (d : dict V) : bool := distinct (keys d).

(** ** Type Mapper *)

(** The numpy scalar types used as parsing hints (names of numpy 1.x), and
    any other value a caller may put in a [dtype] override; a value that
    compares equal to one of the five counts as that one. *)
Inductive dtype : Type :=
| np_float_
| np_int_
| np_bool_
| np_str_
| np_bytes_
| other_dtype (name : str).

Definition _extract_dtype (data_type : str) : option dtype :=
  let data_type := lower data_type in
  if startswith data_type (lit "double") then Some np_float_
  else if startswith data_type (lit "long") then Some np_int_
  else if startswith data_type (lit "bool") then Some np_bool_
  else if startswith data_type (lit "text") || startswith data_type (lit "memo")
       then Some np_str_
  else if startswith data_type (lit "ole") then Some np_bytes_
  else None.

(** ** Schema Scraper *)

(** [span p s]: the longest prefix of [s] whose characters satisfy [p], and
    what follows it.  This is a greedy [p*]. *)
Fixpoint span (p : ascii -> bool) (s : str) : str * str :=
  match s with
  | c :: s' =>
      if p c then let '(a, b) := span p s' in (c :: a, b) else ([], s)
  | [] => ([], [])
  end.

(** What [.] matches without DOTALL. *)
Definition not_newline (c : ascii) : bool := negb (Ascii.eqb c nl).

(** Where [$] holds: at the end, or before a line feed that ends the text. *)
Definition at_end (s : str) : bool :=
  match s with
  | [] => true
  | [c] => Ascii.eqb c nl
  | _ => false
  end.

(** [DEF_RE.match(line)], giving groups 1 and 2.  The pattern reads: any
    whitespace, a bracketed run of word characters (group 1), any
    whitespace, and the rest up to the end (group 2), where [.] stops at a
    line feed.  Every greedy repetition is followed by something it cannot
    itself match (or, for the second [\s*], giving characters back to the
    rest ends at the same place), so the longest spans decide the match. *)
Definition DEF_RE_match (line : str) : option (str * str) :=
  let '(_, s1) := span isspace line in
  match s1 with
  | "["%char :: s2 =>
      let '(name, s3) := span is_word s2 in
      match name, s3 with
      | _ :: _, "]"%char :: s4 =>
          let '(_, s5) := span isspace s4 in
          let '(descr, s6) := span not_newline s5 in
          if at_end s6 then Some (name, descr) else None
      | _, _ => None
      end
  | _ => None
  end.

(** The body of the loop of [_extract_defs]. *)
Definition add_def (defs : dict str) (line : str) : dict str :=
  match DEF_RE_match line with
  | Some (name, descr) => dict_set defs name (strip (remove_commas descr))
  | None => defs
  end.

Definition _extract_defs (defs_str : str) : dict str :=
  fold_left add_def (splitlines defs_str) [].

(** A literal piece of a pattern: the rest of [s] after [p]. *)
Fixpoint after_literal (p s : str) {struct p} : option str :=
  match p with
  | [] => Some s
  | a :: p' =>
      match s with
      | b :: s' => if Ascii.eqb b a then after_literal p' s' else None
      | [] => None
      end
  end.

(** The lazy [.*?\)] of group 2 followed by [;], under DOTALL: the text up to
    and including the first closing parenthesis that a semicolon follows, and
    the text after that semicolon. *)
Fixpoint until_close (s : str) : option (str * str) :=
  match s with
  | [] => None
  | c :: s' =>
      match (if Ascii.eqb c ")"%char then after_literal (lit ";") s' else None) with
      | Some rest => Some ([c], rest)
      | None =>
          match until_close s' with
          | Some (g, rest) => Some (c :: g, rest)
          | None => None
          end
      end
  end.

(** One attempt of [TABLE_RE = CREATE TABLE \[(\w+)\]\s+\((.*?\));] at the
    start of [s]: groups 1 and 2 and the text after the match. *)
Definition TABLE_RE_match (s : str) : option (str * str * str) :=
  match after_literal (lit "CREATE TABLE [") s with
  | Some s1 =>
      let '(table, s2) := span is_word s1 in
      match table, s2 with
      | _ :: _, "]"%char :: s3 =>
          let '(ws, s4) := span isspace s3 in
          match ws, s4 with
          | _ :: _, "("%char :: s5 =>
              match until_close s5 with
              | Some (defs, rest) => Some (table, defs, rest)
              | None => None
              end
          | _, _ => None
          end
      | _, _ => None
      end
  | None => None
  end.

(** [TABLE_RE.findall]: matches are sought from left to right; after a match
    the scan resumes behind it, otherwise one character further.  Each step
    shortens the text, so [fuel] above its length is never used up. *)
Fixpoint findall_fuel (fuel : nat) (s : str) : list (str * str) :=
  match fuel with
  | O => []
  | S fuel' =>
      match TABLE_RE_match s with
      | Some (table, defs, rest) => (table, defs) :: findall_fuel fuel' rest
      | None =>
          match s with
          | [] => []
          | _ :: s' => findall_fuel fuel' s'
          end
      end
  end.

Definition TABLE_RE_findall (s : str) : list (str * str) :=
  findall_fuel (S (List.length s)) s.

(** Lines 98-99 of [read_schema]: blank lines and lines starting with a dash
    are dropped, the others joined by line feeds. *)
Definition schema_ddl (text : str) : str :=
  join [nl] (filter (fun l => nonempty_str l && negb (startswith l (lit "-")))
                  (splitlines text)).

(** Lines 101-105 of [read_schema]. *)
Definition scrape (ddl : str) : dict (dict str) :=
  fold_left (fun schema td => dict_set schema (fst td) (_extract_defs (snd td)))
            (TABLE_RE_findall ddl) [].

(** ** Typed Schema *)

(** The inner loop of [to_pandas_schema]. *)
Definition add_column (implicit_string : bool) (sub_schema : dict dtype)
           (item : str * str) : dict dtype :=
  let '(column, data_type) := item in
  match _extract_dtype data_type with
  | Some t => dict_set sub_schema column t
  | None =>
      if implicit_string then dict_set sub_schema column np_str_
      else sub_schema
  end.

(** [pd_schema[tbl]] is first bound to [None] and, after the inner loop, to
    the sub-schema: one entry, at the position of the first assignment. *)
Definition to_pandas_schema (schema : dict (dict str)) (implicit_string : bool)
  : dict (dict dtype) :=
  fold_left
    (fun pd_schema td =>
       dict_set pd_schema (fst td)
                (fold_left (add_column implicit_string) (snd td) []))
    schema [].

(** ** Exceptions *)

Inductive exception : Type :=
| KeyError (key : str)
| UnboundLocalError (name : str)
| AttributeError (name : str)
| ValueError
| TypeError
| FileNotFoundError
| CalledProcessError
| UnicodeDecodeError
| ParserError.

(** [isinstance(e, NameError)]: [UnboundLocalError] is its only subclass. *)
Definition is_NameError (e : exception) : bool :=
  match e with UnboundLocalError _ => true | _ => false end.

Inductive result (A : Type) : Type :=
| Ok (a : A)
| Raise (e : exception).

Arguments Ok {A} a.
Arguments Raise {A} e.

Definition bind (A B : Type) (r : result A) (k : A -> result B) : result B :=
  match r with
  | Ok a => k a
  | Raise e => Raise e
  end.

Notation "x <- r ;; k" := (bind r (fun x => k))
  (at level 61, r at next level, right associativity).

(** [d[k]] *)
Definition getitem (V : Type) (d : dict V) (k : str) : result V :=
  match dict_get d k with
  | Some v => Ok v
  | None => Raise (KeyError k)
  end.

(** Running [f] over a list from left to right, stopping at the first
    exception. *)
Fixpoint mapM (A B : Type) (f : A -> result B) (l : list A) : result (list B) :=
  match l with
  | [] => Ok []
  | a :: l' => b <- f a ;; bs <- mapM f l' ;; Ok (b :: bs)
  end.

(** ** [codecs.escape_decode] *)

Definition backslash : Byte.byte := Byte.x5c.

Definition byte_of_N (n : N) : Byte.byte :=
  match Byte.of_N (n mod 256) with
  | Some b => b
  | None => Byte.x00
  end.

Definition octal_digit (b : Byte.byte) : option N :=
  let n := Byte.to_N b in
  if between 48 55 n then Some (n - 48)%N else None.

Definition hex_digit (b : Byte.byte) : option N :=
  let n := Byte.to_N b in
  if between 48 57 n then Some (n - 48)%N
  else if between 97 102 n then Some (n - 87)%N
  else if between 65 70 n then Some (n - 55)%N
  else None.

(** The escapes of one character after the backslash, besides the line feed
    (which is dropped), the octal digits and [x]. *)
Definition simple_escape (b : Byte.byte) : option Byte.byte :=
  match b with
  | Byte.x5c => Some Byte.x5c
  | Byte.x27 => Some Byte.x27
  | Byte.x22 => Some Byte.x22
  | Byte.x62 => Some Byte.x08
  | Byte.x66 => Some Byte.x0c
  | Byte.x74 => Some Byte.x09
  | Byte.x6e => Some Byte.x0a
  | Byte.x72 => Some Byte.x0d
  | Byte.x76 => Some Byte.x0b
  | Byte.x61 => Some Byte.x07
  | _ => None
  end.

(** The decoder behind [codecs.escape_decode] (CPython's, not code of this
    repository) on a byte string, with the default error handling.  A
    backslash that ends the text is a [ValueError].  After a backslash, up
    to three octal digits give one byte (the value is cut to eight bits);
    [x] needs two hex digits and is a [ValueError] without them; an unknown
    escape keeps its backslash, and the character after it is read again as
    an ordinary one. *)
Fixpoint decode_escapes (s : bytes) : result bytes :=
  match s with
  | [] => Ok []
  | c :: s1 =>
      if Byte.eqb c backslash then
        match s1 with
        | [] => Raise ValueError
        | e :: s2 =>
            if Byte.eqb e Byte.x0a then decode_escapes s2
            else
              match simple_escape e with
              | Some b => out <- decode_escapes s2 ;; Ok (b :: out)
              | None =>
                  match octal_digit e with
                  | Some d1 =>
                      match s2 with
                      | e2 :: s3 =>
                          match octal_digit e2 with
                          | Some d2 =>
                              match s3 with
                              | e3 :: s4 =>
                                  match octal_digit e3 with
                                  | Some d3 =>
                                      out <- decode_escapes s4 ;;
                                      Ok (byte_of_N ((d1 * 8 + d2) * 8 + d3) :: out)
                                  | None =>
                                      out <- decode_escapes s3 ;;
                                      Ok (byte_of_N (d1 * 8 + d2) :: out)
                                  end
                              | [] =>
                                  out <- decode_escapes s3 ;;
                                  Ok (byte_of_N (d1 * 8 + d2) :: out)
                              end
                          | None => out <- decode_escapes s2 ;; Ok (byte_of_N d1 :: out)
                          end
                      | [] => out <- decode_escapes s2 ;; Ok (byte_of_N d1 :: out)
                      end
                  | None =>
                      if Byte.eqb e Byte.x78 then
                        match s2 with
                        | h1 :: h2 :: s4 =>
                            match hex_digit h1, hex_digit h2 with
                            | Some a, Some b =>
                                out <- decode_escapes s4 ;;
                                Ok (byte_of_N (a * 16 + b) :: out)
                            | _, _ => Raise ValueError
                            end
                        | _ => Raise ValueError
                        end
                      else out <- decode_escapes s1 ;; Ok (backslash :: out)
                  end
              end
        end
      else out <- decode_escapes s1 ;; Ok (c :: out)
  end.

(** [s.encode('utf-8')] for code points below 256. *)
Definition utf8_char (c : ascii) : bytes :=
  let n := code c in
  if (n <? 128)%N then [byte_of_N n]
  else [byte_of_N (192 + n / 64); byte_of_N (128 + n mod 64)].

Definition encode_utf8 (s : str) : bytes := flat_map utf8_char s.

(** The value of one cell of a parsed table. *)
Inductive cell : Type :=
| cell_str (s : str)
| cell_bytes (b : bytes)
| cell_other (repr : str).

(** [codecs.escape_decode(x)[0]]: text is encoded as UTF-8 first; anything
    but text and bytes is refused. *)
Definition escape_decode (x : cell) : result cell :=
  match x with
  | cell_str s => b <- decode_escapes (encode_utf8 s) ;; Ok (cell_bytes b)
  | cell_bytes b => b' <- decode_escapes b ;; Ok (cell_bytes b')
  | cell_other _ => Raise TypeError
  end.

(** ** Table Reader *)

(** A parsed table: its columns in order, each a label and its cells. *)
Definition frame := list (str * list cell).

(** [df.loc[:, column] = df.loc[:, column].map(f)] *)
Fixpoint loc_map (f : cell -> result cell) (column : str) (df : frame)
  : result frame :=
  match df with
  | [] => Ok []
  | (label, cells) :: df' =>
      cells' <- (if str_eqb label column then mapM f cells else Ok cells) ;;
      rest <- loc_map f column df' ;;
      Ok ((label, cells') :: rest)
  end.

Definition is_np_bytes_ (t : dtype) : bool :=
  match t with np_bytes_ => true | _ => false end.

(** The loop of lines 174-178 over the column labels.  The local name
    [dtypes] is bound ([Some]) only when the branch of line 153 was taken;
    reading it unbound raises [UnboundLocalError]. *)
Fixpoint decode_columns (dtypes : option (dict dtype)) (labels : list str)
         (df : frame) : result frame :=
  match labels with
  | [] => Ok df
  | column :: labels' =>
      t <- match dtypes with
           | Some d => getitem d column
           | None => Raise (UnboundLocalError (lit "dtypes"))
           end ;;
      df' <- (if is_np_bytes_ t then loc_map escape_decode column df else Ok df) ;;
      decode_columns dtypes labels' df'
  end.

(** What [pd.read_csv] returns: a table, or with [chunksize] a reader of
    chunks, which has no [columns]. *)
Inductive parsed : Type :=
| DataFrame (df : frame)
| TextFileReader (chunks : list frame).

(** Lines 173-180.  [df.columns] is read first. *)
Definition post_pass (dtypes : option (dict dtype)) (p : parsed) : result parsed :=
  match p with
  | DataFrame df =>
      df' <- decode_columns dtypes (map fst df) df ;; Ok (DataFrame df')
  | TextFileReader _ => Raise (AttributeError (lit "columns"))
  end.

Section TableReader.

(** The external collaborators: [subprocess.check_output], [bytes.decode],
    [subprocess.Popen] with its [stdout] pipe, and [pd.read_csv] called with
    [keep_default_na=False]. *)
Variable check_output : list str -> result bytes.
Variable decode : bytes -> str -> result str.
Variable pipe : Type.
Variable Popen : list str -> result pipe.
Variable csv_args : Type.
Variable csv_options : Type.

(** The paths computed when the module is loaded. *)
Variable mdb_export : str.
Variable mdb_schema : str.

(** The keyword arguments of [read_table]: the four it reads itself and the
    rest, which belongs to [pd.read_csv].  [None] is an absent keyword. *)
Record kwargs : Type := {
  converters_from_schema : option bool;
  kw_dtype : option (dict dtype);
  schema_encoding : option str;
  implicit_string : option bool;
  kw_rest : csv_options
}.

Variable read_csv : pipe -> csv_args -> kwargs -> result parsed.

(** [kwargs.pop(key, default)], the value. *)
Definition popped (A : Type) (v : option A) (default : A) : A :=
  match v with Some a => a | None => default end.

(** Both platform branches run the same command. *)
Definition read_schema (rdb_file encoding : str) : result (dict (dict str)) :=
  output <- check_output [mdb_schema; rdb_file] ;;
  text <- decode output encoding ;;
  Ok (scrape (schema_ddl text)).

(** The keyword arguments left for [pd.read_csv] once the hints are
    inferred: the four keywords are popped, and [dtype] is set when the
    merged hints are not empty. *)
Definition with_hints (kw : kwargs) (dtypes : dict dtype) : kwargs :=
  {| converters_from_schema := None;
     kw_dtype := if nonempty dtypes then Some dtypes else None;
     schema_encoding := None;
     implicit_string := None;
     kw_rest := kw_rest kw |}.

(** The keyword arguments with [converters_from_schema] alone popped. *)
Definition without_converters (kw : kwargs) : kwargs :=
  {| converters_from_schema := None;
     kw_dtype := kw_dtype kw;
     schema_encoding := schema_encoding kw;
     implicit_string := implicit_string kw;
     kw_rest := kw_rest kw |}.

(** Lines 153-161: the binding of the local [dtypes], if any, and the
    keyword arguments left for [pd.read_csv]. *)
Definition hints (rdb_file table_name : str) (kw : kwargs)
  : result (option (dict dtype) * kwargs) :=
  if popped (converters_from_schema kw) true then
    let specified_dtypes := popped (kw_dtype kw) [] in
    let encoding := popped (schema_encoding kw) (lit "utf8") in
    schema <- read_schema rdb_file encoding ;;
    let schemas := to_pandas_schema schema (popped (implicit_string kw) true) in
    dtypes <- getitem schemas table_name ;;
    let dtypes := dict_update dtypes specified_dtypes in
    Ok (Some dtypes, with_hints kw dtypes)
  else
    Ok (None, without_converters kw).

Definition read_table (rdb_file table_name : str) (args : csv_args)
           (kw : kwargs) : result parsed :=
  bound <- hints rdb_file table_name kw ;;
  let '(dtypes, kw') := bound in
  proc <- Popen [mdb_export; lit "-b"; lit "octal"; rdb_file; table_name] ;;
  df <- read_csv proc args kw' ;;
  post_pass dtypes df.

End TableReader.

(** ** Table lister *)

(** [s.split(sep)] for a separator [sep] of one character: every occurrence
    of the separator ends a piece, so there is always at least one piece and
    neighbouring separators give empty pieces.  [cur] holds the piece being
    read, in reverse. *)
Fixpoint split_from (sep : ascii) (cur : str) (s : str) : list str :=
  match s with
  | [] => [rev cur]
  | c :: s' =>
      if Ascii.eqb c sep then rev cur :: split_from sep [] s'
      else split_from sep (c :: cur) s'
  end.

Definition split (s : str) (sep : ascii) : list str := split_from sep [] s.

Section TableLister.

Variable check_output : list str -> result bytes.
Variable decode : bytes -> str -> result str.

(** The path computed when the module is loaded. *)
Variable mdb_tables : str.

(** Both platform branches run the same command. *)
Definition list_tables (rdb_file encoding : str) : result (list str) :=
  output <- check_output [mdb_tables; rdb_file] ;;
  tables <- decode output encoding ;;
  Ok (split (strip tables) " "%char).

End TableLister.

(** ** Reference definitions

    What the specification says, written independently of the code above,
    and the shapes of input its properties speak about. *)

(** A pattern letter and a text character that agree up to case. *)
Definition same_letter (p c : ascii) : bool :=
  Ascii.eqb c p || (between 97 122 (code p) && (code c + 32 =? code p)%N).

(** Case-insensitive prefix match of the lower-case pattern [p]. *)
Fixpoint ci_startswith (s p : str) {struct p} : bool :=
  match p with
  | [] => true
  | a :: p' =>
      match s with
      | [] => false
      | b :: s' => same_letter a b && ci_startswith s' p'
      end
  end.

(** The matching rule of the Type Mapper, first match first. *)
Definition matching_rule (declared : str) : option dtype :=
  if ci_startswith declared (lit "double") then Some np_float_
  else if ci_startswith declared (lit "long") then Some np_int_
  else if ci_startswith declared (lit "bool") then Some np_bool_
  else if ci_startswith declared (lit "text") then Some np_str_
  else if ci_startswith declared (lit "memo") then Some np_str_
  else if ci_startswith declared (lit "ole") then Some np_bytes_
  else None.

(** The type given to a column under the schema-level mapping, if any. *)
Definition column_type (implicit_string : bool) (declared : str) : option dtype :=
  match _extract_dtype declared with
  | Some t => Some t
  | None => if implicit_string then Some np_str_ else None
  end.

(** The columns of a Table Definition that keep a type, in their order. *)
Definition typed_columns (implicit_string : bool) (defs : dict str) : dict dtype :=
  flat_map (fun item =>
              match column_type implicit_string (snd item) with
              | Some t => [(fst item, t)]
              | None => []
              end) defs.

Fixpoint drop_commas (s : str) : str :=
  match s with
  | c :: s' => if Ascii.eqb c ","%char then drop_commas s' else s
  | [] => []
  end.

(** A type description with its trailing commas stripped and trimmed of
    whitespace, the rest left as it is. *)
Definition trailing_commas_stripped (descr : str) : str :=
  strip (rev (drop_commas (rev (strip descr)))).

(** A column definition line: indentation, the bracketed name, and the rest
    of the line. *)
Record column_def : Type := {
  col_indent : str;
  col_name : str;
  col_rest : str
}.

Definition column_line (c : column_def) : str :=
  col_indent c ++ "["%char :: col_name c ++ "]"%char :: col_rest c.

Definition in_line (c : ascii) : bool := negb (is_linebreak c).

Definition wf_column (c : column_def) : bool :=
  forallb (fun x => isspace x && in_line x) (col_indent c)
  && nonempty_str (col_name c) && forallb is_word (col_name c)
  && forallb (fun x => in_line x && negb (Ascii.eqb x ";"%char)) (col_rest c).

(** A block [CREATE TABLE [name] (defs);] with one definition per line. *)
Record table_block : Type := {
  tbl_name : str;
  tbl_space : str;
  tbl_columns : list column_def
}.

(** The text between the parentheses: a line feed, then one line per
    column. *)
Definition block_body (b : table_block) : str :=
  nl :: flat_map (fun c => column_line c ++ [nl]) (tbl_columns b).

Definition block_text (b : table_block) : str :=
  lit "CREATE TABLE [" ++ tbl_name b ++ "]"%char :: tbl_space b
  ++ "("%char :: block_body b ++ lit ");".

Definition wf_block (b : table_block) : bool :=
  nonempty_str (tbl_name b) && forallb is_word (tbl_name b)
  && nonempty_str (tbl_space b) && forallb isspace (tbl_space b)
  && forallb wf_column (tbl_columns b)
  && distinct (map col_name (tbl_columns b)).

(** Text in which no block opens: from no position of [gap] on does the
    text read [CREATE TABLE [], whatever follows the gap. *)
Definition no_opener (gap : str) : Prop :=
  forall a b follow, gap = a ++ b -> b <> [] ->
    startswith (b ++ follow) (lit "CREATE TABLE [") = false.

(** A dump: blocks, each after some other text, and the text after the
    last. *)
Fixpoint dump_text (items : list (str * table_block)) (trailer : str) : str :=
  match items with
  | [] => trailer
  | (gap, b) :: rest => gap ++ block_text b ++ dump_text rest trailer
  end.


(** The Table Definition a block describes. *)
Definition block_defs (b : table_block) : dict str :=
  map (fun c => (col_name c, strip (remove_commas (col_rest c)))) (tbl_columns b).

Definition octal_digit_char (n : N) : ascii := ascii_of_N (48 + n).

(** Modelled from the spec: the octal escaping of the export command
    ([mdb-export -b octal], an external tool).  A byte for which [raw]
    holds is written as itself, any other as a backslash and its three
    octal digits; which bytes the tool leaves as they are is not fixed
    here. *)
Definition octal_escape (raw : Byte.byte -> bool) (data : bytes) : str :=
  flat_map (fun b =>
              let n := Byte.to_N b in
              if raw b then [ascii_of_N n]
              else ["\"%char; octal_digit_char (n / 64);
                    octal_digit_char ((n / 8) mod 8); octal_digit_char (n mod 8)])
           data.

(** A byte that may be written as itself: ASCII, and not the backslash. *)
Definition plain_byte (b : Byte.byte) : bool :=
  (Byte.to_N b <? 128)%N && negb (Byte.eqb b backslash).

(** A column as exported: text cells, or binary content that the export
    tool escapes. *)
Inductive exported_column : Type :=
| text_column (cells : list cell)
| binary_column (content : list bytes).

Definition exported_cells (raw : Byte.byte -> bool) (c : exported_column) : list cell :=
  match c with
  | text_column cells => cells
  | binary_column content => map (fun data => cell_str (octal_escape raw data)) content
  end.

Definition decoded_cells (c : exported_column) : list cell :=
  match c with
  | text_column cells => cells
  | binary_column content => map cell_bytes content
  end.

Definition is_binary (c : exported_column) : bool :=
  match c with binary_column _ => true | text_column _ => false end.






(** Modelled from the spec: the bytes the export command leaves as they are
    when it escapes the non-printable ones, that is the printable ASCII
    bytes, from the space to the tilde. *)
Definition printable (b : Byte.byte) : bool := between 32 126 (Byte.to_N b).

(** Content in which every byte that the export command writes as itself is
    a plain byte. *)
Definition restorable (raw : Byte.byte -> bool) (data : bytes) : bool :=
  forallb (fun b => implb (raw b) (plain_byte b)) data.

Definition restorable_column (raw : Byte.byte -> bool) (c : exported_column)
  : bool :=
  match c with
  | text_column _ => true
  | binary_column content => forallb (restorable raw) content
  end.

(** A name of word characters and a type description that is trimmed and
    holds neither a comma nor a line boundary. *)
Definition clean_column (entry : str * str) : Prop :=
  fst entry <> [] /\ forallb is_word (fst entry) = true
  /\ ~ In ","%char (snd entry)
  /\ strip (snd entry) = snd entry
  /\ forallb in_line (snd entry) = true.

(** One of the five numpy types of the Type Mapper. *)
Definition is_numpy_type (t : dtype) : bool :=
  match t with other_dtype _ => false | _ => true end.

(** A cell that holds bytes. *)
Definition is_bytes_cell (x : cell) : bool :=
  match x with cell_bytes _ => true | _ => false end.

(** A column after the post-pass, against the column as parsed: the same
    label, the same number of cells, and either the same cells or cells of
    bytes only. *)
Definition column_kept (parsed_col final_col : str * list cell) : Prop :=
  fst final_col = fst parsed_col
  /\ List.length (snd final_col) = List.length (snd parsed_col)
  /\ (snd final_col = snd parsed_col
      \/ forallb is_bytes_cell (snd final_col) = true).

(** ** Sample data *)

(** The schema of the specification's scenario, with a column of a type the
    Type Mapper does not know. *)
Definition foo_schema : dict (dict str) :=
  [(lit "Foo", [(lit "A", lit "Long Integer");
                (lit "B", lit "Text (50)");
                (lit "D", lit "DateTime")])].

(** The dump text of the specification's scenario. *)
Definition scenario_dump : str :=
  lit "CREATE TABLE [Foo] (" ++ nl
  :: tab :: lit "[A]" ++ tab :: lit "Long Integer," ++ nl
  :: tab :: lit "[B]" ++ tab :: lit "Text (50)" ++ nl
  :: lit ");".

(** The text between the parentheses of a block, up to the one that closes
    it, with a size specification that holds a comma. *)
Definition foo_defs_str : str :=
  nl :: tab :: lit "[A]" ++ tab :: lit "Long Integer," ++ nl
     :: tab :: lit "[Price]" ++ tab :: lit "Numeric (10, 2), " ++ nl
     :: lit "not a column" ++ nl :: lit ")".

Definition price_line : str := tab :: lit "[Price]" ++ tab :: lit "Numeric (10, 2), ".

(** What the schema command prints for two tables, with its comment lines
    and blank lines. *)
Definition sample_dump : str :=
  lit "-- ----------------------------------------------------------" ++ nl
  :: lit "-- MDB Tools - A library for reading MS Access database files" ++ nl
  :: nl
  :: lit "CREATE TABLE [Foo]" ++ nl :: lit " (" ++ nl
  :: tab :: lit "[A]" ++ tab :: tab :: lit "Long Integer, " ++ nl
  :: tab :: lit "[B]" ++ tab :: tab :: lit "Text (50)" ++ nl
  :: lit ");" ++ nl
  :: nl
  :: lit "CREATE TABLE [Docs]" ++ nl :: lit " (" ++ nl
  :: tab :: lit "[Id]" ++ tab :: tab :: lit "Long Integer, " ++ nl
  :: tab :: lit "[Body]" ++ tab :: tab :: lit "OLE (255), " ++ nl
  :: tab :: lit "[Stamp]" ++ tab :: tab :: lit "DateTime" ++ nl
  :: lit ");" ++ [nl].

Definition foo_block : table_block :=
  {| tbl_name := lit "Foo";
     tbl_space := nl :: lit " ";
     tbl_columns :=
       [ {| col_indent := [tab]; col_name := lit "A";
            col_rest := tab :: tab :: lit "Long Integer, " |};
         {| col_indent := [tab]; col_name := lit "B";
            col_rest := tab :: tab :: lit "Text (50)" |} ] |}.

Definition docs_block : table_block :=
  {| tbl_name := lit "Docs";
     tbl_space := nl :: lit " ";
     tbl_columns :=
       [ {| col_indent := [tab]; col_name := lit "Id";
            col_rest := tab :: tab :: lit "Long Integer, " |};
         {| col_indent := [tab]; col_name := lit "Body";
            col_rest := tab :: tab :: lit "OLE (255), " |};
         {| col_indent := [tab]; col_name := lit "Stamp";
            col_rest := tab :: tab :: lit "DateTime" |} ] |}.


(** Collaborators for the sample database: the schema command prints
    [sample_dump], the export command starts, and [pd.read_csv] returns the
    given outcome. *)
Definition sample_check_output (cmd : list str) : result bytes := Ok [].
Definition sample_decode (output : bytes) (encoding : str) : result str :=
  Ok sample_dump.
Definition sample_Popen (cmd : list str) : result unit := Ok tt.
Definition sample_read_csv (outcome : result parsed)
           (f : unit) (args : unit) (kw : kwargs unit) : result parsed :=
  outcome.

Definition sample_kwargs (converters : option bool)
           (overrides : option (dict dtype)) (implicit : option bool)
  : kwargs unit :=
  {| converters_from_schema := converters;
     kw_dtype := overrides;
     schema_encoding := None;
     implicit_string := implicit;
     kw_rest := tt |}.

(** The call [read_table("db.mdb", table, **kw)] on the sample database. *)
Definition sample_read_table (outcome : result parsed) (table : str)
           (kw : kwargs unit) : result parsed :=
  read_table sample_check_output sample_decode sample_Popen
             (lit "mdb-export") (lit "mdb-schema") (sample_read_csv outcome)
             (lit "db.mdb") table tt kw.

(** The table [Docs] as exported, its binary column escaped in octal. *)
Definition docs_exported : list (str * exported_column) :=
  [(lit "Id", text_column [cell_other (lit "1")]);
   (lit "Body", binary_column [[Byte.x00; Byte.x01; Byte.xff]]);
   (lit "Stamp", text_column [cell_str (lit "01/01/20 00:00:00")])].

Definition never_raw (b : Byte.byte) : bool := false.

(** Parsed tables: [Docs] as exported, [Docs] with a cell that ends in a
    backslash, and [Foo]. *)
Definition docs_frame : frame :=
  map (fun c => (fst c, exported_cells never_raw (snd c))) docs_exported.

Definition broken_frame : frame :=
  [(lit "Body", [cell_str (lit "\")]);
   (lit "Stamp", [cell_str (lit "01/01/20 00:00:00")])].

Definition foo_frame : frame :=
  [(lit "A", [cell_str (lit "1")]); (lit "B", [cell_str (lit "x")])].

(** What the table-listing command prints for the sample database, and
    the lister on it. *)
Definition sample_tables : str := lit "Foo Docs " ++ [nl].

Definition sample_list_tables (tables : str) : result (list str) :=
  list_tables sample_check_output (fun _ _ => Ok tables)
              (lit "mdb-tables") (lit "db.mdb") (lit "latin-1").

(** A block whose table name holds a space, and a dump that opens with it. *)
Definition order_details_rest : str :=
  lit "Details]" ++ nl :: lit " (" ++ nl
  :: tab :: lit "[Id]" ++ tab :: tab :: lit "Long Integer" ++ nl
  :: lit ");" ++ [nl].

(** A dump that defines the table [Foo] twice. *)
Definition foo_again : table_block :=
  {| tbl_name := lit "Foo";
     tbl_space := nl :: lit " ";
     tbl_columns :=
       [ {| col_indent := [tab]; col_name := lit "Z";
            col_rest := tab :: tab :: lit "Double" |} ] |}.

Definition twice_items : list (str * table_block) :=
  [([], foo_block); ([nl], docs_block); ([nl], foo_again)].

(** A parsed table with a column whose name is not a word. *)
Definition people_frame : frame :=
  [(lit "A", [cell_str (lit "1")]); (lit "First Name", [cell_str (lit "Ann")])].

(** The table [Docs] as parsed, with a second row whose binary cell ends in
    a lone backslash. *)
Definition docs_frame_bad_cell : frame :=
  [(lit "Id", [cell_other (lit "1"); cell_other (lit "2")]);
   (lit "Body", [cell_str (lit "\000\001\377"); cell_str (lit "abc\")]);
   (lit "Stamp", [cell_str (lit "01/01/20 00:00:00");
                  cell_str (lit "02/01/20 00:00:00")])].










(** The table [Docs] with two rows, the second binary cell holding
    printable bytes ([GIF89a]) before a zero byte, and the table as the
    export command writes it when it escapes the non-printable bytes. *)
Definition docs_rows : list (str * exported_column) :=
  [(lit "Id", text_column [cell_other (lit "1"); cell_other (lit "2")]);
   (lit "Body", binary_column
                  [[Byte.x00; Byte.x01; Byte.xff];
                   [Byte.x47; Byte.x49; Byte.x46; Byte.x38; Byte.x39; Byte.x61;
                    Byte.x00]]);
   (lit "Stamp", text_column [cell_str (lit "01/01/20 00:00:00");
                              cell_str (lit "02/01/20 00:00:00")])].

Definition docs_rows_frame : frame :=
  map (fun c => (fst c, exported_cells printable (snd c))) docs_rows.

(** The table [Docs] with binary content of four printable bytes, a
    backslash and the digits 1, 0, 1. *)
Definition backslash_content : bytes := [Byte.x5c; Byte.x31; Byte.x30; Byte.x31].

Definition backslash_docs : list (str * exported_column) :=
  [(lit "Id", text_column [cell_other (lit "1")]);
   (lit "Body", binary_column [backslash_content]);
   (lit "Stamp", text_column [cell_str (lit "01/01/20 00:00:00")])].

Definition backslash_frame : frame :=
  map (fun c => (fst c, exported_cells printable (snd c))) backslash_docs.

(** * Properties *)

(** ** The scenario of the specification *)

Example scenario_scraped :
  scrape (schema_ddl scenario_dump)
  = [(lit "Foo", [(lit "A", lit "Long Integer"); (lit "B", lit "Text (50)")])].
Proof. reflexivity. Qed.

Example scenario_typed :
  to_pandas_schema (scrape (schema_ddl scenario_dump)) true
  = [(lit "Foo", [(lit "A", np_int_); (lit "B", np_str_)])].
Proof. reflexivity. Qed.

Example splitlines_boundaries :
  splitlines (lit "a" ++ "013"%char :: nl :: nl :: lit "b" ++ [nl])
  = [lit "a"; []; lit "b"].
Proof. reflexivity. Qed.

(** ** Strings and dictionaries *)

Lemma str_eqb_eq (a b : str) : str_eqb a b = true <-> a = b.
Proof.
  unfold str_eqb. destruct (list_eq_dec ascii_dec a b); split; congruence.
Qed.

Lemma str_eqb_refl (a : str) : str_eqb a a = true.
Proof. now apply str_eqb_eq. Qed.

Lemma str_eqb_neq (a b : str) : str_eqb a b = false <-> a <> b.
Proof.
  unfold str_eqb. destruct (list_eq_dec ascii_dec a b); split; congruence.
Qed.

Lemma existsb_str_eqb (x : str) (l : list str) :
  existsb (str_eqb x) l = true <-> In x l.
Proof.
  rewrite existsb_exists. split.
  - intros [y [Hin Heq]]. apply str_eqb_eq in Heq. now subst.
  - intros Hin. exists x. split; [assumption | apply str_eqb_refl].
Qed.

Lemma distinct_NoDup (l : list str) : distinct l = true <-> NoDup l.
Proof.
  induction l as [|x l IH]; simpl.
  - split; [constructor | reflexivity].
  - rewrite andb_true_iff, negb_true_iff, IH. split.
    + intros [Hx Hl]. constructor; [|assumption].
      intro Hin. apply existsb_str_eqb in Hin. congruence.
    + intros Hnd. inversion Hnd as [|? ? Hx Hl]; subst. split; [|assumption].
      destruct (existsb (str_eqb x) l) eqn:E; [|reflexivity].
      apply existsb_str_eqb in E. contradiction.
Qed.

(** ** Type Mapper *)

Lemma lower_char_same_letter (p c : ascii) :
  between 97 122 (code p) = true ->
  Ascii.eqb (lower_char c) p = same_letter p c.
Proof.
  destruct p as [[] [] [] [] [] [] [] []]; intro Hp; try discriminate Hp;
    clear Hp; destruct c as [[] [] [] [] [] [] [] []]; vm_compute; reflexivity.
Qed.

Lemma startswith_lower (p s : str) :
  forallb (fun a => between 97 122 (code a)) p = true ->
  startswith (lower s) p = ci_startswith s p.
Proof.
  revert s. induction p as [|a p IH]; intros s Hp; [reflexivity|].
  simpl in Hp. apply andb_true_iff in Hp. destruct Hp as [Ha Hp].
  destruct s as [|b s]; [reflexivity|]. simpl.
  rewrite lower_char_same_letter by assumption.
  fold (lower s). now rewrite IH.
Qed.

(** Lowering the text and testing the prefixes is the matching rule. *)
Lemma extract_dtype_rule (declared : str) :
  _extract_dtype declared = matching_rule declared.
Proof.
  unfold _extract_dtype, matching_rule.
  rewrite !startswith_lower by reflexivity.
  destruct (ci_startswith declared (lit "double")); [reflexivity|].
  destruct (ci_startswith declared (lit "long")); [reflexivity|].
  destruct (ci_startswith declared (lit "bool")); [reflexivity|].
  destruct (ci_startswith declared (lit "text")); reflexivity.
Qed.

(** C3. For every raw declared-type string the Type Mapper yields what the
    matching rule says: a case-insensitive prefix match tried in the fixed
    order [double] (Float), [long] (Integer), [bool] (Boolean), [text] or
    [memo] (Text), [ole] (Bytes), and the unknown marker [None] when no
    prefix matches. *)
Theorem extract_dtype_matching_rule (declared : str) :
  _extract_dtype declared
  = if ci_startswith declared (lit "double") then Some np_float_
    else if ci_startswith declared (lit "long") then Some np_int_
    else if ci_startswith declared (lit "bool") then Some np_bool_
    else if ci_startswith declared (lit "text") then Some np_str_
    else if ci_startswith declared (lit "memo") then Some np_str_
    else if ci_startswith declared (lit "ole") then Some np_bytes_
    else None.
Proof.
  rewrite extract_dtype_rule. reflexivity.
Qed.

(** ** Dictionaries built by repeated assignment *)

Lemma dict_get_None (V : Type) (d : dict V) (k : str) :
  dict_get d k = None <-> ~ In k (keys d).
Proof.
  induction d as [|[k' v] d IH]; simpl.
  - tauto.
  - destruct (str_eqb k' k) eqn:E.
    + apply str_eqb_eq in E. split; [discriminate | tauto].
    + apply str_eqb_neq in E. rewrite IH. tauto.
Qed.



Lemma dict_set_fresh (V : Type) (d : dict V) (k : str) (v : V) :
  ~ In k (keys d) -> dict_set d k v = d ++ [(k, v)].
Proof.
  induction d as [|[k' v'] d IH]; simpl; intros Hk; [reflexivity|].
  destruct (str_eqb k' k) eqn:E.
  - apply str_eqb_eq in E. tauto.
  - rewrite IH; tauto.
Qed.

Lemma keys_app (V : Type) (a b : dict V) : keys (a ++ b) = keys a ++ keys b.
Proof. apply map_app. Qed.

(** A loop that assigns at most one entry per element builds the entries in
    the order of the elements, when their keys are new and distinct. *)
Lemma fold_left_dict_set (A V : Type) (f : dict V -> A -> dict V)
      (h : A -> option (str * V)) :
  (forall acc x,
      f acc x = match h x with
                | Some kv => dict_set acc (fst kv) (snd kv)
                | None => acc
                end) ->
  forall l acc,
    NoDup (keys acc
           ++ keys (flat_map (fun x => match h x with
                                       | Some kv => [kv]
                                       | None => []
                                       end) l)) ->
    fold_left f l acc
    = acc ++ flat_map (fun x => match h x with
                                | Some kv => [kv]
                                | None => []
                                end) l.
Proof.
  intros Hf. induction l as [|x l IH]; intros acc Hnd; simpl.
  - now rewrite app_nil_r.
  - rewrite Hf. simpl in Hnd. destruct (h x) as [[k v]|]; simpl in *.
    + rewrite dict_set_fresh.
      * rewrite IH; [now rewrite <- app_assoc|].
        rewrite keys_app. simpl. now rewrite <- app_assoc.
      * apply NoDup_remove_2 in Hnd. intro Hin. apply Hnd.
        apply in_or_app. now left.
    + now apply IH.
Qed.

Lemma flat_map_singleton (A B : Type) (g : A -> B) (l : list A) :
  flat_map (fun x => [g x]) l = map g l.
Proof. induction l; simpl; congruence. Qed.

Lemma dict_get_map_values (A B : Type) (g : A -> B) (d : dict A) (k : str) :
  dict_get (map (fun kv => (fst kv, g (snd kv))) d) k
  = option_map g (dict_get d k).
Proof.
  induction d as [|[k' v] d IH]; simpl; [reflexivity|].
  destruct (str_eqb k' k); [reflexivity | exact IH].
Qed.

Lemma keys_map_values (A B : Type) (g : A -> B) (d : dict A) :
  keys (map (fun kv => (fst kv, g (snd kv))) d) = keys d.
Proof. unfold keys. rewrite map_map. reflexivity. Qed.

(** ** Typed Schema *)

Lemma typed_columns_filter (implicit_string : bool) (defs : dict str) :
  keys (typed_columns implicit_string defs)
  = keys (filter (fun item =>
                    match column_type implicit_string (snd item) with
                    | Some _ => true
                    | None => false
                    end) defs).
Proof.
  induction defs as [|[c t] defs IH]; simpl; [reflexivity|].
  destruct (column_type implicit_string t); simpl; now rewrite <- IH.
Qed.

Lemma keys_filter_incl (V : Type) (p : str * V -> bool) (d : dict V) (k : str) :
  In k (keys (filter p d)) -> In k (keys d).
Proof.
  unfold keys. rewrite !in_map_iff. intros [x [Hx Hin]].
  apply filter_In in Hin. exists x. tauto.
Qed.

Lemma keys_filter_NoDup (V : Type) (p : str * V -> bool) (d : dict V) :
  NoDup (keys d) -> NoDup (keys (filter p d)).
Proof.
  induction d as [|[k v] d IH]; simpl; intros Hnd; [constructor|].
  inversion Hnd as [|? ? Hk Hd]; subst.
  destruct (p (k, v)); simpl; [|now apply IH].
  constructor; [|now apply IH].
  intro Hin. apply Hk. eapply keys_filter_incl. exact Hin.
Qed.

Lemma add_columns (implicit_string : bool) (defs : dict str) :
  NoDup (keys defs) ->
  fold_left (add_column implicit_string) defs []
  = typed_columns implicit_string defs.
Proof.
  intros Hnd.
  rewrite (@fold_left_dict_set _ _ (add_column implicit_string)
             (fun item => option_map (pair (fst item))
                            (column_type implicit_string (snd item)))).
  - simpl. unfold typed_columns. apply flat_map_ext. intros [c t]. simpl.
    now destruct (column_type implicit_string t).
  - intros acc [c t]. unfold add_column, column_type. simpl.
    destruct (_extract_dtype t); [reflexivity|].
    now destruct implicit_string.
  - simpl.
    replace (flat_map _ defs) with (typed_columns implicit_string defs).
    + rewrite typed_columns_filter. now apply keys_filter_NoDup.
    + unfold typed_columns. apply flat_map_ext. intros [c t]. simpl.
      now destruct (column_type implicit_string t).
Qed.

Lemma dict_get_typed_columns (implicit_string : bool) (defs : dict str) (c : str) :
  NoDup (keys defs) ->
  dict_get (typed_columns implicit_string defs) c
  = match dict_get defs c with
    | Some t => column_type implicit_string t
    | None => None
    end.
Proof.
  induction defs as [|[k t] defs IH]; simpl; intros Hnd; [reflexivity|].
  inversion Hnd as [|? ? Hk Hd]; subst.
  destruct (str_eqb k c) eqn:E.
  - apply str_eqb_eq in E. subst k.
    destruct (column_type implicit_string t) eqn:Ht; simpl.
    + now rewrite str_eqb_refl.
    + apply dict_get_None. intro Hin. apply Hk.
      rewrite typed_columns_filter in Hin. eapply keys_filter_incl. exact Hin.
  - destruct (column_type implicit_string t); simpl; [rewrite E|]; now apply IH.
Qed.

(** The schema-level mapping, table by table. *)
Lemma to_pandas_schema_map (schema : dict (dict str)) (implicit_string : bool) :
  NoDup (keys schema) ->
  to_pandas_schema schema implicit_string
  = map (fun td => (fst td, fold_left (add_column implicit_string) (snd td) []))
        schema.
Proof.
  intros Hnd. unfold to_pandas_schema.
  rewrite (@fold_left_dict_set _ _ _
             (fun td => Some (fst td,
                              fold_left (add_column implicit_string) (snd td) []))).
  - simpl. apply flat_map_singleton.
  - reflexivity.
  - simpl. rewrite flat_map_singleton.
    rewrite (keys_map_values
               (fun d => fold_left (add_column implicit_string) d [])).
    exact Hnd.
Qed.

Lemma to_pandas_schema_get (schema : dict (dict str)) (implicit_string : bool)
      (tbl : str) (defs : dict str) :
  is_dict schema = true -> dict_get schema tbl = Some defs ->
  is_dict defs = true ->
  dict_get (to_pandas_schema schema implicit_string) tbl
  = Some (typed_columns implicit_string defs).
Proof.
  intros Hs Hget Hd. apply distinct_NoDup in Hs. apply distinct_NoDup in Hd.
  rewrite to_pandas_schema_map by assumption.
  rewrite (dict_get_map_values
             (fun d : dict str => fold_left (add_column implicit_string) d [])).
  rewrite Hget. simpl. now rewrite add_columns.
Qed.

(** C9. For every Schema and every table in it, the typed schema of the
    table has the table's column names in the table's order, leaving out
    only columns without a mapped type when [implicit_string] is false: no
    mapped column is removed, no name is added, nothing is reordered; the
    tables themselves are kept as they are. *)
Theorem typed_schema_keeps_columns
        (schema : dict (dict str)) (implicit_string : bool)
        (tbl : str) (defs : dict str) :
  is_dict schema = true ->
  dict_get schema tbl = Some defs ->
  is_dict defs = true ->
  keys (to_pandas_schema schema implicit_string) = keys schema
  /\ exists typed,
      dict_get (to_pandas_schema schema implicit_string) tbl = Some typed
      /\ keys typed
         = keys (filter (fun item =>
                           implicit_string
                           || match _extract_dtype (snd item) with
                              | Some _ => true
                              | None => false
                              end) defs)
      /\ (implicit_string = true -> keys typed = keys defs).
Proof.
  intros Hs Hget Hd. split.
  - apply distinct_NoDup in Hs. rewrite to_pandas_schema_map by assumption.
    apply (keys_map_values
             (fun d : dict str => fold_left (add_column implicit_string) d [])).
  - exists (typed_columns implicit_string defs). split; [|split].
    + now apply to_pandas_schema_get.
    + rewrite typed_columns_filter. f_equal. apply filter_ext.
      intros [c t]. unfold column_type. simpl.
      destruct (_extract_dtype t); [now rewrite orb_true_r|].
      now destruct implicit_string.
    + intros ->. rewrite typed_columns_filter. f_equal.
      apply forallb_filter_id. apply forallb_forall. intros [c t] _.
      unfold column_type. simpl. now destruct (_extract_dtype t).
Qed.

Lemma typed_schema_keeps_columns_witness :
  keys (to_pandas_schema foo_schema false) = [lit "Foo"]
  /\ exists typed,
      dict_get (to_pandas_schema foo_schema false) (lit "Foo") = Some typed
      /\ keys typed = [lit "A"; lit "B"]
      /\ (false = true -> keys typed = [lit "A"; lit "B"; lit "D"]).
Proof.
  exact (@typed_schema_keeps_columns foo_schema false (lit "Foo")
           (snd (hd (lit "", []) foo_schema)) eq_refl eq_refl eq_refl).
Defined.

(** C4. A column whose declared type matches none of the five prefixes is
    typed Text when [implicit_string] is true and is absent from the typed
    schema when it is false; the mapping returns a typed schema in both
    cases. *)
Theorem unmapped_column_fallback
        (schema : dict (dict str)) (tbl : str) (defs : dict str)
        (column declared : str) :
  is_dict schema = true ->
  dict_get schema tbl = Some defs ->
  is_dict defs = true ->
  dict_get defs column = Some declared ->
  matching_rule declared = None ->
  (exists typed,
      dict_get (to_pandas_schema schema true) tbl = Some typed
      /\ dict_get typed column = Some np_str_)
  /\ (exists typed,
        dict_get (to_pandas_schema schema false) tbl = Some typed
        /\ dict_get typed column = None
        /\ ~ In column (keys typed)).
Proof.
  intros Hs Hget Hd Hcol Hnone.
  rewrite <- extract_dtype_rule in Hnone.
  assert (Hnd : NoDup (keys defs)) by now apply distinct_NoDup.
  split.
  - exists (typed_columns true defs). split; [now apply to_pandas_schema_get|].
    rewrite dict_get_typed_columns by assumption.
    rewrite Hcol. unfold column_type. now rewrite Hnone.
  - exists (typed_columns false defs).
    assert (Hget' : dict_get (typed_columns false defs) column = None).
    { rewrite dict_get_typed_columns by assumption.
      rewrite Hcol. unfold column_type. now rewrite Hnone. }
    split; [now apply to_pandas_schema_get|]. split; [exact Hget'|].
    now apply dict_get_None.
Qed.

Lemma unmapped_column_fallback_witness :
  (exists typed,
      dict_get (to_pandas_schema foo_schema true) (lit "Foo") = Some typed
      /\ dict_get typed (lit "D") = Some np_str_)
  /\ (exists typed,
        dict_get (to_pandas_schema foo_schema false) (lit "Foo") = Some typed
        /\ dict_get typed (lit "D") = None
        /\ ~ In (lit "D") (keys typed)).
Proof.
  exact (@unmapped_column_fallback foo_schema (lit "Foo")
           (snd (hd (lit "", []) foo_schema)) (lit "D") (lit "DateTime")
           eq_refl eq_refl eq_refl eq_refl eq_refl).
Defined.

(** ** Column definitions *)

Lemma span_all (p : ascii -> bool) (a : str) :
  forallb p a = true -> span p a = (a, []).
Proof.
  induction a as [|c a IH]; simpl; [reflexivity|].
  intros H. apply andb_true_iff in H. destruct H as [Hc Ha].
  now rewrite Hc, IH.
Qed.

Lemma span_stop (p : ascii -> bool) (a : str) (c : ascii) (b : str) :
  forallb p a = true -> p c = false -> span p (a ++ c :: b) = (a, c :: b).
Proof.
  induction a as [|x a IH]; simpl; intros Ha Hc.
  - now rewrite Hc.
  - apply andb_true_iff in Ha. destruct Ha as [Hx Ha]. now rewrite Hx, IH.
Qed.

Lemma span_parts (p : ascii -> bool) (s a b : str) :
  span p s = (a, b) ->
  s = a ++ b /\ forallb p a = true
  /\ match b with [] => True | c :: _ => p c = false end.
Proof.
  revert a b. induction s as [|c s IH]; simpl; intros a b H.
  - inversion H; subst. now repeat split.
  - destruct (p c) eqn:Hc.
    + destruct (span p s) as [a' b'] eqn:E. inversion H; subst.
      destruct (IH a' b eq_refl) as [Hs [Ha Hb]]. simpl.
      rewrite Hc, Ha. subst s. now repeat split.
    + inversion H; subst. now repeat split.
Qed.

Lemma span_isspace_lstrip (s : str) : snd (span isspace s) = lstrip s.
Proof.
  induction s as [|c s IH]; simpl; [reflexivity|].
  destruct (isspace c); [|reflexivity].
  destruct (span isspace s). exact IH.
Qed.

Lemma forallb_lstrip (p : ascii -> bool) (s : str) :
  forallb p s = true -> forallb p (lstrip s) = true.
Proof.
  induction s as [|c s IH]; simpl; [reflexivity|].
  intros H. destruct (isspace c); [|exact H].
  apply andb_true_iff in H. now apply IH.
Qed.

Lemma lstrip_remove_commas (s : str) :
  lstrip (remove_commas (lstrip s)) = lstrip (remove_commas s).
Proof.
  induction s as [|c s IH]; simpl; [reflexivity|].
  destruct (isspace c) eqn:Hc; [|reflexivity].
  destruct (Ascii.eqb c ","%char) eqn:E; simpl.
  - apply Ascii.eqb_eq in E. subst c. discriminate Hc.
  - now rewrite Hc.
Qed.

Lemma strip_remove_commas_lstrip (s : str) :
  strip (remove_commas (lstrip s)) = strip (remove_commas s).
Proof. unfold strip. now rewrite lstrip_remove_commas. Qed.

(** The match of [DEF_RE] on a line of the bracketed-name shape. *)
Lemma DEF_RE_match_shape (indent name rest : str) :
  forallb isspace indent = true ->
  name <> [] -> forallb is_word name = true ->
  forallb not_newline rest = true ->
  DEF_RE_match (indent ++ "["%char :: name ++ "]"%char :: rest)
  = Some (name, lstrip rest).
Proof.
  intros Hi Hne Hw Hr. unfold DEF_RE_match.
  rewrite span_stop by (assumption || reflexivity).
  rewrite span_stop by (assumption || reflexivity).
  destruct name as [|n name]; [congruence|].
  pose proof (span_isspace_lstrip rest) as Hl.
  destruct (span isspace rest) as [ws s5]. simpl in Hl. subst s5.
  rewrite span_all by now apply forallb_lstrip.
  reflexivity.
Qed.

(** A line on which [DEF_RE] matches has the bracketed-name shape. *)
Lemma DEF_RE_match_inv (line name descr : str) :
  DEF_RE_match line = Some (name, descr) ->
  exists indent rest,
    line = indent ++ "["%char :: name ++ "]"%char :: rest
    /\ forallb isspace indent = true
    /\ name <> [] /\ forallb is_word name = true.
Proof.
  unfold DEF_RE_match.
  destruct (span isspace line) as [indent s1] eqn:E1.
  destruct s1 as [|c s2]; [discriminate|].
  destruct (Ascii.eqb c "["%char) eqn:Ec;
    [apply Ascii.eqb_eq in Ec; subst c
    | destruct c as [[] [] [] [] [] [] [] []]; try discriminate Ec; discriminate].
  destruct (span is_word s2) as [nm s3] eqn:E2.
  destruct nm as [|n nm]; [discriminate|].
  destruct s3 as [|d s4]; [discriminate|].
  destruct (Ascii.eqb d "]"%char) eqn:Ed;
    [apply Ascii.eqb_eq in Ed; subst d
    | destruct d as [[] [] [] [] [] [] [] []]; try discriminate Ed; discriminate].
  destruct (span isspace s4) as [ws s5].
  destruct (span not_newline s5) as [ds s6].
  destruct (at_end s6); [|discriminate].
  intros H. inversion H; subst.
  apply span_parts in E1. apply span_parts in E2.
  destruct E1 as [-> [Hi _]]. destruct E2 as [-> [Hw _]].
  exists indent, s4. repeat split; [assumption | discriminate | assumption].
Qed.

Lemma in_line_not_newline (c : ascii) : in_line c = true -> not_newline c = true.
Proof.
  unfold not_newline. destruct (Ascii.eqb c nl) eqn:E; [|reflexivity].
  apply Ascii.eqb_eq in E. subst c. discriminate.
Qed.

Lemma forallb_impl (A : Type) (p q : A -> bool) (l : list A) :
  (forall x, p x = true -> q x = true) ->
  forallb p l = true -> forallb q l = true.
Proof.
  intros Hpq. rewrite !forallb_forall. auto.
Qed.

Lemma forallb_rev (A : Type) (p : A -> bool) (l : list A) :
  forallb p (rev l) = forallb p l.
Proof.
  induction l as [|x l IH]; simpl; [reflexivity|].
  rewrite forallb_app, IH. simpl. rewrite andb_true_r. apply andb_comm.
Qed.

(** The lines of [splitlines] hold no line boundary. *)
Lemma splitlines_from_in_line (n : nat) :
  forall s cur line,
    List.length s <= n -> forallb in_line cur = true ->
    In line (splitlines_from cur s) -> forallb in_line line = true.
Proof.
  induction n as [|n IH]; intros s cur line Hlen Hcur Hin.
  - destruct s; [|simpl in Hlen; lia]. simpl in Hin.
    destruct cur; [contradiction|]. destruct Hin as [<-|[]].
    now rewrite forallb_rev.
  - destruct s as [|c s]; simpl in Hin.
    + destruct cur; [contradiction|]. destruct Hin as [<-|[]].
      now rewrite forallb_rev.
    + simpl in Hlen. destruct (is_linebreak c) eqn:Hc.
      * destruct Hin as [<-|Hin]; [now rewrite forallb_rev|].
        destruct s as [|d s]; [contradiction|].
        destruct (Ascii.eqb c "013"%char && Ascii.eqb d "010"%char).
        -- apply (IH s [] line); [simpl in Hlen; lia | reflexivity | exact Hin].
        -- apply (IH (d :: s) [] line); [lia | reflexivity | exact Hin].
      * apply (IH s (c :: cur) line); [lia | | exact Hin].
        simpl. unfold in_line at 1. now rewrite Hc.
Qed.

Lemma splitlines_in_line (s line : str) :
  In line (splitlines s) -> forallb in_line line = true.
Proof.
  intros Hin.
  now apply (@splitlines_from_in_line (List.length s) s [] line).
Qed.

Lemma In_lstrip (x : ascii) (s : str) : In x (lstrip s) -> In x s.
Proof.
  induction s as [|c s IH]; simpl; [tauto|].
  destruct (isspace c); simpl; tauto.
Qed.

Lemma In_strip (x : ascii) (s : str) : In x (strip s) -> In x s.
Proof.
  unfold strip, rstrip. intros H. apply In_lstrip.
  apply in_rev. apply In_lstrip. apply in_rev. exact H.
Qed.

Lemma no_comma_left (s : str) : ~ In ","%char (strip (remove_commas s)).
Proof.
  intros H. apply In_strip in H. unfold remove_commas in H.
  apply filter_In in H. destruct H as [_ H]. discriminate H.
Qed.

(** C5, as the code has it.  For every line inside the text of a block:
    if the line has the bracketed-name shape, the column name is bound to
    the rest of the line with every comma removed, trailing or interior,
    and the surrounding whitespace trimmed; if it has not, the line is
    skipped and the definitions stay as they were. *)
Theorem column_def_parsing (defs_str : str) (defs : dict str) (line : str) :
  In line (splitlines defs_str) ->
  _extract_defs defs_str = fold_left add_def (splitlines defs_str) []
  /\ (forall indent name rest,
         line = indent ++ "["%char :: name ++ "]"%char :: rest ->
         forallb isspace indent = true ->
         name <> [] -> forallb is_word name = true ->
         add_def defs line = dict_set defs name (strip (remove_commas rest))
         /\ ~ In ","%char (strip (remove_commas rest)))
  /\ (~ (exists indent name rest,
            line = indent ++ "["%char :: name ++ "]"%char :: rest
            /\ forallb isspace indent = true
            /\ name <> [] /\ forallb is_word name = true) ->
      add_def defs line = defs).
Proof.
  intros Hin. apply splitlines_in_line in Hin.
  split; [reflexivity|]. split.
  - intros indent name rest -> Hi Hne Hw. split; [|apply no_comma_left].
    unfold add_def. rewrite DEF_RE_match_shape; try assumption.
    + now rewrite strip_remove_commas_lstrip.
    + rewrite forallb_app in Hin. apply andb_true_iff in Hin.
      destruct Hin as [_ Hin]. simpl in Hin.
      rewrite forallb_app in Hin. apply andb_true_iff in Hin.
      destruct Hin as [_ Hin]. simpl in Hin.
      eapply forallb_impl; [exact in_line_not_newline | exact Hin].
  - intros Hno. unfold add_def.
    destruct (DEF_RE_match line) as [[name descr]|] eqn:E; [|reflexivity].
    exfalso. apply Hno. apply DEF_RE_match_inv in E.
    destruct E as [indent [rest H]]. now exists indent, name, rest.
Qed.

Lemma column_def_parsing_witness :
  add_def [] price_line = [(lit "Price", lit "Numeric (10 2)")]
  /\ ~ In ","%char (lit "Numeric (10 2)").
Proof.
  exact (proj1 (proj2 (@column_def_parsing foo_defs_str [] price_line
                         (or_intror (or_intror (or_introl eq_refl)))))
           [tab] (lit "Price") (tab :: lit "Numeric (10, 2), ")
           eq_refl eq_refl
           (fun H : lit "Price" = [] => @eq_ind str (lit "Price")
              (fun s => match s with [] => False | _ => True end) I [] H)
           eq_refl).
Defined.

(** C5 as stated fails: an interior comma of a size specification is
    removed along with the trailing one. *)
Lemma interior_comma_removed :
  trailing_commas_stripped (lit "Numeric (10, 2), ") = lit "Numeric (10, 2)"
  /\ _extract_defs price_line = [(lit "Price", lit "Numeric (10 2)")]
  /\ _extract_defs price_line
     <> [(lit "Price", trailing_commas_stripped (lit "Numeric (10, 2), "))].
Proof.
  split; [reflexivity|]. split; [reflexivity|]. intros H. vm_compute in H.
  discriminate H.
Qed.

(** ** Table blocks *)

Lemma after_literal_app (p s : str) : after_literal p (p ++ s) = Some s.
Proof.
  induction p as [|a p IH]; simpl; [reflexivity|].
  now rewrite Ascii.eqb_refl.
Qed.

Lemma after_literal_startswith (p s : str) :
  startswith s p = false -> after_literal p s = None.
Proof.
  revert s. induction p as [|a p IH]; intros s; simpl; [discriminate|].
  destruct s as [|b s]; [reflexivity|].
  destruct (Ascii.eqb b a); simpl; [apply IH | reflexivity].
Qed.

Lemma after_literal_length (p s r : str) :
  after_literal p s = Some r -> List.length s = List.length p + List.length r.
Proof.
  revert s. induction p as [|a p IH]; intros s; simpl.
  - now intros [= ->].
  - destruct s as [|b s]; [discriminate|].
    destruct (Ascii.eqb b a); [|discriminate].
    intros H. apply IH in H. simpl. lia.
Qed.

Lemma until_close_length (s g r : str) :
  until_close s = Some (g, r) -> List.length r < List.length s.
Proof.
  revert g. induction s as [|c s IH]; intros g; cbn [until_close];
    [discriminate|].
  destruct (if Ascii.eqb c ")"%char then after_literal (lit ";") s else None)
    as [rest|] eqn:E.
  - intros [= <- <-]. destruct (Ascii.eqb c ")"%char); [|discriminate].
    apply after_literal_length in E. simpl in *. lia.
  - destruct (until_close s) as [[g' r']|]; [|discriminate].
    intros [= <- <-]. specialize (IH g' eq_refl). simpl. lia.
Qed.

Lemma span_length (p : ascii -> bool) (s a b : str) :
  span p s = (a, b) -> List.length b <= List.length s.
Proof.
  intros H. apply span_parts in H. destruct H as [-> _].
  rewrite length_app. lia.
Qed.

(** A match of [TABLE_RE] consumes text. *)
Lemma TABLE_RE_match_shorter (s table defs rest : str) :
  TABLE_RE_match s = Some (table, defs, rest) ->
  List.length rest < List.length s.
Proof.
  unfold TABLE_RE_match.
  destruct (after_literal (lit "CREATE TABLE [") s) as [s1|] eqn:E1; [|discriminate].
  destruct (span is_word s1) as [t s2] eqn:E2.
  destruct t as [|t0 t]; [discriminate|].
  destruct s2 as [|c s3]; [discriminate|].
  destruct (Ascii.eqb c "]"%char) eqn:Ec;
    [apply Ascii.eqb_eq in Ec; subst c
    | destruct c as [[] [] [] [] [] [] [] []]; try discriminate Ec; discriminate].
  destruct (span isspace s3) as [ws s4] eqn:E3.
  destruct ws as [|w0 ws]; [discriminate|].
  destruct s4 as [|d s5]; [discriminate|].
  destruct (Ascii.eqb d "("%char) eqn:Ed;
    [apply Ascii.eqb_eq in Ed; subst d
    | destruct d as [[] [] [] [] [] [] [] []]; try discriminate Ed; discriminate].
  destruct (until_close s5) as [[g r]|] eqn:E4; [|discriminate].
  intros [= <- <- <-].
  apply after_literal_length in E1. apply span_length in E2.
  apply span_length in E3. apply until_close_length in E4.
  simpl in *. lia.
Qed.

(** Fuel above the length of the text is never used up. *)
Lemma findall_fuel_enough (n : nat) :
  forall m s, List.length s < n -> List.length s < m ->
              findall_fuel n s = findall_fuel m s.
Proof.
  induction n as [|n IH]; intros m s Hn Hm; [lia|].
  destruct m as [|m]; [lia|]. simpl.
  destruct (TABLE_RE_match s) as [[[table defs] rest]|] eqn:E.
  - apply TABLE_RE_match_shorter in E. f_equal. apply IH; lia.
  - destruct s as [|c s]; [reflexivity|]. simpl in *. apply IH; lia.
Qed.

(** The scan of [findall], one step at a time. *)
Lemma TABLE_RE_findall_step (s : str) :
  TABLE_RE_findall s
  = match TABLE_RE_match s with
    | Some (table, defs, rest) => (table, defs) :: TABLE_RE_findall rest
    | None =>
        match s with
        | [] => []
        | _ :: s' => TABLE_RE_findall s'
        end
    end.
Proof.
  unfold TABLE_RE_findall at 1. cbn [findall_fuel].
  destruct (TABLE_RE_match s) as [[[table defs] rest]|] eqn:E.
  - apply TABLE_RE_match_shorter in E. f_equal.
    apply findall_fuel_enough; lia.
  - destruct s as [|c s]; [reflexivity|].
    apply findall_fuel_enough; simpl; lia.
Qed.

Lemma no_opener_tail (c : ascii) (gap : str) : no_opener (c :: gap) -> no_opener gap.
Proof.
  intros H a b follow -> Hb. now apply (H (c :: a) b follow).
Qed.

(** Text without an opener yields no match and is passed over. *)
Lemma findall_skip_gap (gap follow : str) :
  no_opener gap -> TABLE_RE_findall (gap ++ follow) = TABLE_RE_findall follow.
Proof.
  induction gap as [|c gap IH]; intros Hno; [reflexivity|].
  rewrite TABLE_RE_findall_step. unfold TABLE_RE_match.
  rewrite after_literal_startswith.
  - simpl. apply IH. eapply no_opener_tail. exact Hno.
  - apply (Hno [] (c :: gap) follow); [reflexivity | discriminate].
Qed.

Lemma no_opener_without_C (gap : str) :
  forallb (fun c => negb (Ascii.eqb c "C"%char)) gap = true -> no_opener gap.
Proof.
  intros H a b follow -> Hb. rewrite forallb_app in H.
  apply andb_true_iff in H. destruct H as [_ H].
  destruct b as [|c b]; [congruence|]. simpl in *.
  apply andb_true_iff in H. destruct H as [H _].
  apply negb_true_iff in H. now rewrite H.
Qed.

Lemma until_close_body (body follow : str) :
  forallb (fun x => negb (Ascii.eqb x ";"%char)) body = true ->
  until_close (body ++ ")"%char :: ";"%char :: follow)
  = Some (body ++ [")"%char], follow).
Proof.
  induction body as [|c body IH]; simpl; intros H; [reflexivity|].
  apply andb_true_iff in H. destruct H as [Hc H]. rewrite (IH H).
  destruct (Ascii.eqb c ")"%char); [|reflexivity].
  destruct body as [|d body]; simpl; [reflexivity|].
  simpl in H. apply andb_true_iff in H. destruct H as [Hd _].
  apply negb_true_iff in Hd. now rewrite Hd.
Qed.

Lemma is_word_in_line (c : ascii) :
  is_word c = true -> in_line c && negb (Ascii.eqb c ";"%char) = true.
Proof.
  destruct c as [[] [] [] [] [] [] [] []]; intro H; try discriminate H;
    reflexivity.
Qed.

Lemma isspace_no_semicolon (c : ascii) :
  isspace c = true -> negb (Ascii.eqb c ";"%char) = true.
Proof.
  destruct (Ascii.eqb c ";"%char) eqn:E; [|reflexivity].
  apply Ascii.eqb_eq in E. subst c. discriminate.
Qed.

(** A well-formed column line holds no line boundary and no semicolon. *)
Lemma column_line_chars (c : column_def) :
  wf_column c = true ->
  forallb (fun x => in_line x && negb (Ascii.eqb x ";"%char)) (column_line c) = true.
Proof.
  unfold wf_column, column_line. rewrite !andb_true_iff.
  intros [[[Hi Hne] Hw] Hr].
  rewrite forallb_app. apply andb_true_iff. split.
  - eapply forallb_impl; [|exact Hi]. intros x Hx. simpl in Hx.
    apply andb_true_iff in Hx. destruct Hx as [Hs Hl].
    rewrite Hl. now apply isspace_no_semicolon.
  - cbn [forallb]. apply andb_true_iff. split; [reflexivity|].
    rewrite forallb_app. apply andb_true_iff. split.
    + eapply forallb_impl; [exact is_word_in_line | exact Hw].
    + cbn [forallb]. apply andb_true_iff. split; [reflexivity | exact Hr].
Qed.

Lemma forallb_flat_map (A B : Type) (p : B -> bool) (f : A -> list B) (l : list A) :
  forallb (fun x => forallb p (f x)) l = true -> forallb p (flat_map f l) = true.
Proof.
  induction l as [|x l IH]; simpl; [reflexivity|].
  intros H. apply andb_true_iff in H. destruct H as [Hx Hl].
  rewrite forallb_app, Hx. now apply IH.
Qed.

Lemma block_body_no_semicolon (b : table_block) :
  forallb wf_column (tbl_columns b) = true ->
  forallb (fun x => negb (Ascii.eqb x ";"%char)) (block_body b) = true.
Proof.
  intros Hw. unfold block_body. cbn [forallb].
  apply andb_true_iff. split; [reflexivity|].
  apply forallb_flat_map. eapply forallb_impl; [|exact Hw].
  intros c Hc. cbv beta. rewrite forallb_app.
  apply andb_true_iff. split; [|reflexivity].
  apply column_line_chars in Hc. eapply forallb_impl; [|exact Hc].
  intros x Hx. cbv beta in Hx. apply andb_true_iff in Hx. tauto.
Qed.

(** [TABLE_RE] matches a well-formed block and gives its name and the text
    between its parentheses, closing parenthesis included. *)
Lemma TABLE_RE_match_block (b : table_block) (follow : str) :
  wf_block b = true ->
  TABLE_RE_match (block_text b ++ follow)
  = Some (tbl_name b, block_body b ++ [")"%char], follow).
Proof.
  unfold wf_block. rewrite !andb_true_iff.
  intros [[[[[Hn Hnw] Hs] Hsw] Hc] _].
  unfold TABLE_RE_match, block_text.
  rewrite <- app_assoc, after_literal_app.
  rewrite <- app_assoc. cbn [app].
  rewrite span_stop by (assumption || reflexivity).
  destruct (tbl_name b) as [|n0 name] eqn:En; [discriminate Hn|].
  rewrite <- app_assoc. cbn [app].
  rewrite span_stop by (assumption || reflexivity).
  destruct (tbl_space b) as [|w0 ws] eqn:Es; [discriminate Hs|].
  rewrite <- app_assoc. cbn [app lit list_ascii_of_string].
  rewrite until_close_body by now apply block_body_no_semicolon.
  reflexivity.
Qed.

Lemma splitlines_from_line (line cur rest : str) :
  forallb in_line line = true ->
  splitlines_from cur (line ++ nl :: rest)
  = (rev cur ++ line) :: splitlines_from [] rest.
Proof.
  revert cur. induction line as [|c line IH]; intros cur Hl.
  - rewrite app_nil_r. cbn [app splitlines_from].
    change (is_linebreak nl) with true. cbv iota.
    destruct rest as [|d rest]; reflexivity.
  - cbn [forallb] in Hl. apply andb_true_iff in Hl. destruct Hl as [Hc Hl].
    cbn [app splitlines_from]. unfold in_line in Hc.
    apply negb_true_iff in Hc. rewrite Hc.
    rewrite IH by assumption. cbn [rev]. now rewrite <- app_assoc.
Qed.

Lemma splitlines_block_body (b : table_block) :
  forallb wf_column (tbl_columns b) = true ->
  splitlines (block_body b ++ [")"%char])
  = [] :: map column_line (tbl_columns b) ++ [[")"%char]].
Proof.
  intros Hw. unfold splitlines, block_body. cbn [app].
  rewrite (@splitlines_from_line [] [] _ eq_refl
           : splitlines_from [] (nl :: _) = _).
  cbn [rev app]. f_equal. induction (tbl_columns b) as [|c cols IH]; [reflexivity|].
  cbn [forallb] in Hw. apply andb_true_iff in Hw. destruct Hw as [Hc Hw].
  cbn [flat_map map]. rewrite <- !app_assoc. cbn [app].
  rewrite splitlines_from_line.
  - cbn [rev app]. f_equal. now apply IH.
  - apply column_line_chars in Hc. eapply forallb_impl; [|exact Hc].
    intros x Hx. cbv beta in Hx. apply andb_true_iff in Hx. tauto.
Qed.

Lemma add_def_column_line (defs : dict str) (c : column_def) :
  wf_column c = true ->
  add_def defs (column_line c)
  = dict_set defs (col_name c) (strip (remove_commas (col_rest c))).
Proof.
  unfold wf_column. rewrite !andb_true_iff. intros [[[Hi Hne] Hw] Hr].
  unfold add_def, column_line. rewrite DEF_RE_match_shape.
  - now rewrite strip_remove_commas_lstrip.
  - eapply forallb_impl; [|exact Hi]. intros x Hx. cbv beta in Hx.
    apply andb_true_iff in Hx. tauto.
  - destruct (col_name c); [discriminate Hne | discriminate].
  - exact Hw.
  - eapply forallb_impl; [|exact Hr]. intros x Hx. cbv beta in Hx.
    apply andb_true_iff in Hx. apply in_line_not_newline. tauto.
Qed.

Lemma add_def_column_lines (cols : list column_def) :
  forall acc,
    forallb wf_column cols = true ->
    NoDup (keys acc ++ map col_name cols) ->
    fold_left add_def (map column_line cols) acc
    = acc ++ map (fun c => (col_name c, strip (remove_commas (col_rest c)))) cols.
Proof.
  induction cols as [|c cols IH]; intros acc Hw Hnd; cbn [map fold_left].
  - now rewrite app_nil_r.
  - cbn [forallb] in Hw. apply andb_true_iff in Hw. destruct Hw as [Hc Hw].
    rewrite add_def_column_line by assumption.
    cbn [map] in Hnd. rewrite dict_set_fresh.
    + rewrite IH; [now rewrite <- app_assoc | assumption |].
      rewrite keys_app. cbn. now rewrite <- app_assoc.
    + apply NoDup_remove_2 in Hnd. intro Hin. apply Hnd.
      apply in_or_app. now left.
Qed.

(** The column definitions read from the text of a well-formed block. *)
Lemma extract_defs_block (b : table_block) :
  wf_block b = true ->
  _extract_defs (block_body b ++ [")"%char]) = block_defs b.
Proof.
  unfold wf_block. rewrite !andb_true_iff. intros [[_ Hc] Hd].
  unfold _extract_defs. rewrite splitlines_block_body by assumption.
  cbn [fold_left]. change (add_def [] []) with (@nil (str * str)).
  rewrite fold_left_app. cbn [fold_left].
  rewrite add_def_column_lines.
  - reflexivity.
  - assumption.
  - cbn. now apply distinct_NoDup.
Qed.

Lemma findall_dump (items : list (str * table_block)) (trailer : str) :
  Forall (fun it => no_opener (fst it) /\ wf_block (snd it) = true) items ->
  no_opener trailer ->
  TABLE_RE_findall (dump_text items trailer)
  = map (fun it => (tbl_name (snd it), block_body (snd it) ++ [")"%char])) items.
Proof.
  intros Hitems Htrailer. induction Hitems as [|[gap b] items [Hgap Hb] _ IH].
  - cbn [dump_text map]. rewrite <- (app_nil_r trailer).
    now rewrite findall_skip_gap.
  - cbn [dump_text map fst snd] in *. rewrite findall_skip_gap by assumption.
    rewrite TABLE_RE_findall_step, TABLE_RE_match_block by assumption.
    now rewrite IH.
Qed.








(** ** Lookups after assignment *)

Lemma dict_get_set (V : Type) (d : dict V) (k k' : str) (v : V) :
  dict_get (dict_set d k v) k'
  = if str_eqb k k' then Some v else dict_get d k'.
Proof.
  induction d as [|[k0 v0] d IH]; simpl.
  - reflexivity.
  - destruct (str_eqb k0 k) eqn:E0; simpl.
    + apply str_eqb_eq in E0. subst k0.
      now destruct (str_eqb k k').
    + destruct (str_eqb k0 k') eqn:E1; [|exact IH].
      apply str_eqb_eq in E1. subst k0.
      destruct (str_eqb k k') eqn:E2; [|reflexivity].
      apply str_eqb_eq in E2. subst k. now rewrite str_eqb_refl in E0.
Qed.

(** The tables of the typed schema are those of the schema. *)
Lemma to_pandas_schema_absent (schema : dict (dict str)) (implicit_string : bool)
      (tbl : str) :
  dict_get schema tbl = None ->
  dict_get (to_pandas_schema schema implicit_string) tbl = None.
Proof.
  unfold to_pandas_schema.
  assert (H : forall acc : dict (dict dtype),
             dict_get acc tbl = None -> dict_get schema tbl = None ->
             dict_get
               (fold_left
                  (fun pd_schema td =>
                     dict_set pd_schema (fst td)
                              (fold_left (add_column implicit_string) (snd td) []))
                  schema acc) tbl = None).
  { induction schema as [|[t defs] schema IH]; intros acc Hacc Hs; [exact Hacc|].
    cbn [fold_left fst snd]. simpl in Hs.
    destruct (str_eqb t tbl) eqn:E; [discriminate|].
    apply IH; [|exact Hs]. now rewrite dict_get_set, E. }
  intros Hs. now apply H.
Qed.



(** ** Escapes *)

Lemma encode_utf8_app (a b : str) :
  encode_utf8 (a ++ b) = encode_utf8 a ++ encode_utf8 b.
Proof. apply flat_map_app. Qed.

(** A backslash and the three octal digits of a byte decode to the byte. *)
Lemma decode_octal_escape (b : Byte.byte) (rest : bytes) :
  decode_escapes
    (encode_utf8 ["\"%char; octal_digit_char (Byte.to_N b / 64);
                  octal_digit_char ((Byte.to_N b / 8) mod 8);
                  octal_digit_char (Byte.to_N b mod 8)] ++ rest)
  = out <- decode_escapes rest ;; Ok (b :: out).
Proof. destruct b; reflexivity. Qed.

(** An ASCII byte other than the backslash decodes to itself. *)
Lemma decode_plain_byte (b : Byte.byte) (rest : bytes) :
  plain_byte b = true ->
  decode_escapes (encode_utf8 [ascii_of_N (Byte.to_N b)] ++ rest)
  = out <- decode_escapes rest ;; Ok (b :: out).
Proof. destruct b; intro H; try discriminate H; reflexivity. Qed.

(** Decoding undoes the octal escaping of content whose bytes written as
    themselves are plain bytes. *)
Lemma decode_octal_escaped (raw : Byte.byte -> bool) (data : bytes) :
  restorable raw data = true ->
  decode_escapes (encode_utf8 (octal_escape raw data)) = Ok data.
Proof.
  induction data as [|b data IH]; intros Hraw; [reflexivity|].
  cbn [restorable forallb] in Hraw. apply andb_true_iff in Hraw.
  destruct Hraw as [Hb Hdata]. specialize (IH Hdata).
  unfold octal_escape. cbn [flat_map]. fold (octal_escape raw data).
  rewrite encode_utf8_app. destruct (raw b) eqn:E.
  - rewrite decode_plain_byte by exact Hb. now rewrite IH.
  - rewrite decode_octal_escape. now rewrite IH.
Qed.

(** A policy that writes only plain bytes as themselves keeps all content
    restorable. *)
Lemma restorable_plain_policy (raw : Byte.byte -> bool) (data : bytes) :
  (forall b, raw b = true -> plain_byte b = true) ->
  restorable raw data = true.
Proof.
  intros Hraw. apply forallb_forall. intros b _.
  destruct (raw b) eqn:E; [now apply Hraw | reflexivity].
Qed.

(** Under the policy of the specification, content without a backslash is
    restorable. *)
Lemma restorable_printable (data : bytes) :
  existsb (Byte.eqb backslash) data = false ->
  restorable printable data = true.
Proof.
  induction data as [|b data IH]; intros H; [reflexivity|].
  cbn [existsb] in H. apply orb_false_iff in H. destruct H as [Hb H].
  cbn [restorable forallb]. apply andb_true_iff. split; [|now apply IH].
  destruct b; try reflexivity. discriminate Hb.
Qed.

(** ** The post-pass over the columns *)

Lemma mapM_escaped (raw : Byte.byte -> bool) (content : list bytes) :
  forallb (restorable raw) content = true ->
  mapM escape_decode (map (fun data => cell_str (octal_escape raw data)) content)
  = Ok (map cell_bytes content).
Proof.
  induction content as [|data content IH]; intros Hraw; [reflexivity|].
  cbn [forallb] in Hraw. apply andb_true_iff in Hraw.
  destruct Hraw as [Hdata Hcontent].
  cbn [map mapM escape_decode].
  rewrite decode_octal_escaped by assumption. cbn [bind].
  now rewrite IH.
Qed.

Lemma loc_map_absent (f : cell -> result cell) (column : str) (df : frame) :
  ~ In column (map fst df) -> loc_map f column df = Ok df.
Proof.
  induction df as [|[label cells] df IH]; intros Hin; [reflexivity|].
  cbn [loc_map]. cbn [map fst In] in Hin.
  destruct (str_eqb label column) eqn:E.
  - apply str_eqb_eq in E. tauto.
  - cbn [bind]. rewrite IH by tauto. reflexivity.
Qed.

(** Mapping over one column of a table with distinct labels. *)
Lemma loc_map_column (f : cell -> result cell) (column : str)
      (before after : frame) (cells cells' : list cell) :
  ~ In column (map fst before) -> ~ In column (map fst after) ->
  mapM f cells = Ok cells' ->
  loc_map f column (before ++ (column, cells) :: after)
  = Ok (before ++ (column, cells') :: after).
Proof.
  intros Hb Ha Hf. induction before as [|[label c] before IH].
  - cbn [app loc_map]. rewrite str_eqb_refl, Hf. cbn [bind].
    now rewrite loc_map_absent.
  - cbn [app loc_map]. cbn [map fst In] in Hb.
    destruct (str_eqb label column) eqn:E.
    + apply str_eqb_eq in E. tauto.
    + cbn [bind]. rewrite IH by tauto. reflexivity.
Qed.

Lemma decode_columns_app (dtypes : option (dict dtype)) (l1 l2 : list str) :
  forall df,
    decode_columns dtypes (l1 ++ l2) df
    = df' <- decode_columns dtypes l1 df ;; decode_columns dtypes l2 df'.
Proof.
  induction l1 as [|c l1 IH]; intros df; [reflexivity|].
  cbn [app decode_columns].
  destruct (match dtypes with
            | Some d => getitem d c
            | None => Raise (UnboundLocalError (lit "dtypes"))
            end) as [t|e]; [|reflexivity].
  cbn [bind].
  destruct (if is_np_bytes_ t then loc_map escape_decode c df else Ok df)
    as [df'|e]; [|reflexivity].
  cbn [bind]. apply IH.
Qed.

(** The first element of a list that fails a test: a table with a column
    absent from the hints has a first such column. *)
Lemma first_failing (A : Type) (p : A -> bool) (l : list A) :
  forallb p l = false ->
  exists before x after,
    l = before ++ x :: after /\ forallb p before = true /\ p x = false.
Proof.
  induction l as [|x l IH]; [discriminate|]. cbn [forallb].
  destruct (p x) eqn:E.
  - intros H. destruct (IH H) as [before [y [after [-> [Hb Hy]]]]].
    exists (x :: before), y, after. cbn [forallb]. now rewrite E, Hb.
  - intros _. now exists [], x, l.
Qed.

(** With binary columns typed Bytes and the others typed otherwise, the
    post-pass decodes the former and leaves the latter. *)
Lemma decode_columns_exported (raw : Byte.byte -> bool) (dtypes : dict dtype)
      (todo : list (str * exported_column)) :
  forallb (fun c => restorable_column raw (snd c)) todo = true ->
  forall done,
    NoDup (map fst (done ++ todo)) ->
    (forall label c, In (label, c) todo ->
                     exists t, dict_get dtypes label = Some t
                               /\ is_np_bytes_ t = is_binary c) ->
    decode_columns (Some dtypes) (map fst todo)
      (map (fun c => (fst c, decoded_cells (snd c))) done
       ++ map (fun c => (fst c, exported_cells raw (snd c))) todo)
    = Ok (map (fun c => (fst c, decoded_cells (snd c))) (done ++ todo)).
Proof.
  induction todo as [|[label c] todo IH]; intros Hraw done Hnd Hty.
  - cbn [map decode_columns]. now rewrite !app_nil_r.
  - cbn [forallb snd] in Hraw. apply andb_true_iff in Hraw.
    destruct Hraw as [Hc Hraw]. specialize (IH Hraw).
    cbn [map decode_columns fst snd].
    destruct (Hty label c (or_introl eq_refl)) as [t [Ht Hb]].
    unfold getitem. rewrite Ht. cbn [bind]. rewrite Hb.
    assert (Hnd' : NoDup (map fst ((done ++ [(label, c)]) ++ todo)))
      by now rewrite <- app_assoc.
    assert (Hty' : forall l x, In (l, x) todo ->
                     exists t, dict_get dtypes l = Some t
                               /\ is_np_bytes_ t = is_binary x)
      by (intros l x Hin; apply Hty; now right).
    specialize (IH (done ++ [(label, c)]) Hnd' Hty').
    rewrite map_app in IH. cbn [map fst snd] in IH.
    rewrite <- !app_assoc in IH. cbn [app] in IH.
    destruct c as [cells | content]; cbn [is_binary exported_cells].
    + cbn [bind]. exact IH.
    + rewrite (@loc_map_column _ _ _ _ _ (map cell_bytes content)).
      * cbn [bind]. exact IH.
      * rewrite map_map. cbn [fst]. rewrite map_app in Hnd.
        cbn [map fst] in Hnd. apply NoDup_remove_2 in Hnd.
        intro Hin. apply Hnd. apply in_or_app. now left.
      * rewrite map_map. cbn [fst]. rewrite map_app in Hnd.
        cbn [map fst] in Hnd. apply NoDup_remove_2 in Hnd.
        intro Hin. apply Hnd. apply in_or_app. now right.
      * now apply mapM_escaped.
Qed.

(** ** Table Reader *)

Section TableReaderFacts.

Variable check_output : list str -> result bytes.
Variable decode : bytes -> str -> result str.
Variable pipe : Type.
Variable Popen : list str -> result pipe.
Variable csv_args : Type.
Variable csv_options : Type.
Variable mdb_export : str.
Variable mdb_schema : str.
Variable read_csv : pipe -> csv_args -> kwargs csv_options -> result parsed.

Local Abbreviation the_schema rdb_file kw :=
  (read_schema check_output decode mdb_schema rdb_file
               (popped (schema_encoding kw) (lit "utf8"))).

Local Abbreviation the_table rdb_file table_name args kw :=
  (read_table check_output decode Popen mdb_export mdb_schema read_csv
              rdb_file table_name args kw).

Local Abbreviation export_cmd rdb_file table_name :=
  [mdb_export; lit "-b"; lit "octal"; rdb_file; table_name].

(** The hints of a call that infers them from a scraped schema holding the
    table. *)
Lemma hints_inferred (rdb_file table_name : str) (kw : kwargs csv_options)
      (schema : dict (dict str)) (inferred : dict dtype) :
  popped (converters_from_schema kw) true = true ->
  the_schema rdb_file kw = Ok schema ->
  dict_get (to_pandas_schema schema (popped (implicit_string kw) true)) table_name
  = Some inferred ->
  hints check_output decode mdb_schema rdb_file table_name kw
  = Ok (Some (dict_update inferred (popped (kw_dtype kw) [])),
        with_hints kw (dict_update inferred (popped (kw_dtype kw) []))).
Proof.
  intros Hconv Hschema Hget. unfold hints. rewrite Hconv, Hschema.
  cbn [bind]. unfold getitem. now rewrite Hget.
Qed.

(** C1. A call with [converters_from_schema] true (the default) whose table
    is absent from the scraped schema fails with the lookup error of line
    158, a [KeyError] for the table name; it returns no result. *)
Theorem read_table_missing_table (rdb_file table_name : str) (args : csv_args)
        (kw : kwargs csv_options) (schema : dict (dict str)) :
  popped (converters_from_schema kw) true = true ->
  the_schema rdb_file kw = Ok schema ->
  dict_get schema table_name = None ->
  the_table rdb_file table_name args kw = Raise (KeyError table_name).
Proof.
  intros Hconv Hschema Habsent. unfold read_table, hints.
  rewrite Hconv, Hschema. cbn [bind]. unfold getitem.
  now rewrite to_pandas_schema_absent.
Qed.

(** C2, as the code has it.  In a call with [converters_from_schema] false
    the local [dtypes] is never bound: once the export has started and the
    CSV is parsed, a table with at least one column makes the post-pass
    raise [UnboundLocalError], a [NameError], at its first column, while a
    table without columns is returned as it is (and a reader of chunks has
    no [columns]). *)
Theorem read_table_without_hints (rdb_file table_name : str) (args : csv_args)
        (kw : kwargs csv_options) :
  converters_from_schema kw = Some false ->
  the_table rdb_file table_name args kw
  = (proc <- Popen (export_cmd rdb_file table_name) ;;
     p <- read_csv proc args (without_converters kw) ;;
     match p with
     | DataFrame [] => Ok (DataFrame [])
     | DataFrame (_ :: _) => Raise (UnboundLocalError (lit "dtypes"))
     | TextFileReader _ => Raise (AttributeError (lit "columns"))
     end)
  /\ is_NameError (UnboundLocalError (lit "dtypes")) = true.
Proof.
  intros Hconv. split; [|reflexivity]. unfold read_table, hints.
  rewrite Hconv. cbn [popped bind].
  destruct (Popen (export_cmd rdb_file table_name)) as [proc|e]; [|reflexivity].
  cbn [bind].
  destruct (read_csv proc args (without_converters kw)) as [[df|chunks]|e];
    try reflexivity.
  now destruct df.
Qed.


(** C10, as the code has it.  In a call with [converters_from_schema] true
    whose parsed table has a column absent from the merged hints, the call
    fails after the CSV is parsed.  Up to the first such column the
    post-pass runs as usual, where decoding a cell of a Bytes column may
    raise; if it does not, the lookup of that column raises [KeyError].  So
    the error is this [KeyError] whenever no column before it is a Bytes
    column, and no table is returned in any case. *)
Theorem read_table_unhinted_column (rdb_file table_name : str) (args : csv_args)
        (kw : kwargs csv_options) (schema : dict (dict str))
        (inferred : dict dtype) (proc : pipe) (df : frame)
        (before : list str) (column : str) (after : list str) :
  popped (converters_from_schema kw) true = true ->
  the_schema rdb_file kw = Ok schema ->
  dict_get (to_pandas_schema schema (popped (implicit_string kw) true)) table_name
  = Some inferred ->
  Popen (export_cmd rdb_file table_name) = Ok proc ->
  read_csv proc args
           (with_hints kw (dict_update inferred (popped (kw_dtype kw) [])))
  = Ok (DataFrame df) ->
  map fst df = before ++ column :: after ->
  forallb (dict_has (dict_update inferred (popped (kw_dtype kw) []))) before
  = true ->
  dict_has (dict_update inferred (popped (kw_dtype kw) [])) column = false ->
  let merged := dict_update inferred (popped (kw_dtype kw) []) in
  the_table rdb_file table_name args kw
  = (_ <- decode_columns (Some merged) before df ;; Raise (KeyError column))
  /\ (exists e, the_table rdb_file table_name args kw = Raise e)
  /\ (forallb (fun label =>
                 match dict_get merged label with
                 | Some t => negb (is_np_bytes_ t)
                 | None => true
                 end) before = true ->
      the_table rdb_file table_name args kw = Raise (KeyError column)).
Proof.
  intros Hconv Hschema Hget Hproc Hcsv Hsplit Hb Hc merged.
  assert (Hcall : the_table rdb_file table_name args kw
                  = (_ <- decode_columns (Some merged) before df ;;
                     Raise (KeyError column))).
  { unfold read_table. rewrite (hints_inferred _ _ _ Hconv Hschema Hget).
    cbn [bind]. rewrite Hproc. cbn [bind]. rewrite Hcsv.
    cbn [bind post_pass]. rewrite Hsplit, decode_columns_app. fold merged.
    destruct (decode_columns (Some merged) before df) as [df'|e]; [|reflexivity].
    cbn [bind decode_columns]. unfold getitem. unfold dict_has in Hc.
    fold merged in Hc. now destruct (dict_get merged column). }
  split; [exact Hcall|]. split.
  - rewrite Hcall.
    destruct (decode_columns (Some merged) before df) as [df'|e];
      [now exists (KeyError column) | now exists e].
  - intros Hplain. rewrite Hcall. fold merged in Hb.
    assert (Hsame : forall labels frame0,
               forallb (dict_has merged) labels = true ->
               forallb (fun label =>
                          match dict_get merged label with
                          | Some t => negb (is_np_bytes_ t)
                          | None => true
                          end) labels = true ->
               decode_columns (Some merged) labels frame0 = Ok frame0).
    { induction labels as [|l labels IH]; intros frame0 Hhas Hnb; [reflexivity|].
      cbn [forallb] in Hhas, Hnb. apply andb_true_iff in Hhas, Hnb.
      destruct Hhas as [Hl Hhas]. destruct Hnb as [Hn Hnb].
      cbn [decode_columns]. unfold getitem. unfold dict_has in Hl.
      destruct (dict_get merged l) as [t|]; [|discriminate Hl].
      cbn [bind]. apply negb_true_iff in Hn. rewrite Hn. cbn [bind].
      now apply IH. }
    now rewrite Hsame.
Qed.

(** C8, as the code has it.  When the columns typed Bytes are the binary
    columns of the export, their cells holding the octal escape of the
    content, and every byte of that content which the export command writes
    as itself is an ASCII byte other than the backslash, the post-pass turns
    every such cell into the raw bytes and leaves the other columns as they
    are.  The octal escape of [00 01 ff] decodes to exactly these bytes.
    Decoding is a left inverse of the escaping on such content only: for a
    command that escapes the non-printable bytes, on the content that holds
    no backslash. *)
Theorem read_table_decodes_bytes (rdb_file table_name : str) (args : csv_args)
        (kw : kwargs csv_options) (schema : dict (dict str))
        (inferred : dict dtype) (proc : pipe)
        (raw : Byte.byte -> bool) (cols : list (str * exported_column)) :
  popped (converters_from_schema kw) true = true ->
  the_schema rdb_file kw = Ok schema ->
  dict_get (to_pandas_schema schema (popped (implicit_string kw) true)) table_name
  = Some inferred ->
  Popen (export_cmd rdb_file table_name) = Ok proc ->
  forallb (fun c => restorable_column raw (snd c)) cols = true ->
  read_csv proc args
           (with_hints kw (dict_update inferred (popped (kw_dtype kw) [])))
  = Ok (DataFrame (map (fun c => (fst c, exported_cells raw (snd c))) cols)) ->
  distinct (map fst cols) = true ->
  (forall label c,
      In (label, c) cols ->
      exists t,
        dict_get (dict_update inferred (popped (kw_dtype kw) [])) label = Some t
        /\ is_np_bytes_ t = is_binary c) ->
  the_table rdb_file table_name args kw
  = Ok (DataFrame (map (fun c => (fst c, decoded_cells (snd c))) cols))
  /\ octal_escape printable [Byte.x00; Byte.x01; Byte.xff] = lit "\000\001\377"
  /\ escape_decode (cell_str (lit "\000\001\377"))
     = Ok (cell_bytes [Byte.x00; Byte.x01; Byte.xff])
  /\ (forall data,
         restorable raw data = true ->
         escape_decode (cell_str (octal_escape raw data)) = Ok (cell_bytes data))
  /\ (forall data,
         existsb (Byte.eqb backslash) data = false ->
         escape_decode (cell_str (octal_escape printable data))
         = Ok (cell_bytes data)).
Proof.
  intros Hconv Hschema Hget Hproc Hraw Hcsv Hnd Hty.
  split; [|split; [reflexivity|split; [reflexivity|split]]].
  - unfold read_table. rewrite (hints_inferred _ _ _ Hconv Hschema Hget).
    cbn [bind]. rewrite Hproc. cbn [bind]. rewrite Hcsv.
    cbn [bind post_pass]. rewrite map_map. cbn [fst].
    rewrite (@decode_columns_exported raw _ cols Hraw []).
    + reflexivity.
    + cbn [app]. now apply distinct_NoDup.
    + exact Hty.
  - intros data Hdata. cbn [escape_decode].
    now rewrite decode_octal_escaped.
  - intros data Hdata. cbn [escape_decode].
    now rewrite decode_octal_escaped by now apply restorable_printable.
Qed.

End TableReaderFacts.

(** ** The properties on the sample database *)

Lemma read_table_missing_table_witness :
  sample_read_table (Ok (DataFrame foo_frame)) (lit "Baz")
                    (sample_kwargs None None None)
  = Raise (KeyError (lit "Baz")).
Proof.
  exact (@read_table_missing_table
           sample_check_output sample_decode unit sample_Popen unit unit
           (lit "mdb-export") (lit "mdb-schema")
           (sample_read_csv (Ok (DataFrame foo_frame)))
           (lit "db.mdb") (lit "Baz") tt (sample_kwargs None None None)
           (scrape (schema_ddl sample_dump)) eq_refl eq_refl eq_refl).
Defined.

Lemma read_table_without_hints_witness :
  sample_read_table (Ok (DataFrame foo_frame)) (lit "Foo")
                    (sample_kwargs (Some false) None None)
  = Raise (UnboundLocalError (lit "dtypes"))
  /\ is_NameError (UnboundLocalError (lit "dtypes")) = true.
Proof.
  exact (@read_table_without_hints
           sample_check_output sample_decode unit sample_Popen unit unit
           (lit "mdb-export") (lit "mdb-schema")
           (sample_read_csv (Ok (DataFrame foo_frame)))
           (lit "db.mdb") (lit "Foo") tt
           (sample_kwargs (Some false) None None) eq_refl).
Defined.

(** C2 as stated fails: with [converters_from_schema] false a parsed table
    without columns is returned. *)
Lemma read_table_without_hints_returns :
  sample_read_table (Ok (DataFrame [])) (lit "Foo")
                    (sample_kwargs (Some false) None None)
  = Ok (DataFrame []).
Proof. reflexivity. Qed.


Lemma read_table_unhinted_column_witness :
  sample_read_table (Ok (DataFrame docs_frame)) (lit "Docs")
                    (sample_kwargs None None (Some false))
  = Raise (KeyError (lit "Stamp")).
Proof.
  exact (proj1 (@read_table_unhinted_column
                  sample_check_output sample_decode unit sample_Popen unit unit
                  (lit "mdb-export") (lit "mdb-schema")
                  (sample_read_csv (Ok (DataFrame docs_frame)))
                  (lit "db.mdb") (lit "Docs") tt
                  (sample_kwargs None None (Some false))
                  (scrape (schema_ddl sample_dump))
                  [(lit "Id", np_int_); (lit "Body", np_bytes_)]
                  tt docs_frame [lit "Id"; lit "Body"] (lit "Stamp") []
                  eq_refl eq_refl eq_refl eq_refl eq_refl eq_refl eq_refl
                  eq_refl)).
Defined.

(** C10 as stated fails: a cell of a Bytes column before the column without
    a hint ends in a backslash, and the call raises [ValueError], not
    [KeyError]. *)
Lemma read_table_unhinted_column_other_error :
  dict_has [(lit "Id", np_int_); (lit "Body", np_bytes_)] (lit "Stamp") = false
  /\ sample_read_table (Ok (DataFrame broken_frame)) (lit "Docs")
                       (sample_kwargs None None (Some false))
     = Raise ValueError
  /\ forall key,
      sample_read_table (Ok (DataFrame broken_frame)) (lit "Docs")
                        (sample_kwargs None None (Some false))
      <> Raise (KeyError key).
Proof.
  split; [reflexivity|]. split; [reflexivity|]. intros key H.
  vm_compute in H. discriminate H.
Qed.

Lemma docs_rows_typed (label : str) (c : exported_column) :
  In (label, c) docs_rows ->
  exists t,
    dict_get [(lit "Id", np_int_); (lit "Body", np_bytes_); (lit "Stamp", np_str_)]
             label = Some t
    /\ is_np_bytes_ t = is_binary c.
Proof.
  intros [H|[H|[H|[]]]]; inversion H; subst; eexists; split; reflexivity.
Qed.

Lemma read_table_decodes_bytes_witness :
  sample_read_table (Ok (DataFrame docs_rows_frame)) (lit "Docs")
                    (sample_kwargs None None None)
  = Ok (DataFrame
          [(lit "Id", [cell_other (lit "1"); cell_other (lit "2")]);
           (lit "Body", [cell_bytes [Byte.x00; Byte.x01; Byte.xff];
                         cell_bytes [Byte.x47; Byte.x49; Byte.x46; Byte.x38;
                                     Byte.x39; Byte.x61; Byte.x00]]);
           (lit "Stamp", [cell_str (lit "01/01/20 00:00:00");
                          cell_str (lit "02/01/20 00:00:00")])])
  /\ octal_escape printable [Byte.x00; Byte.x01; Byte.xff] = lit "\000\001\377"
  /\ escape_decode (cell_str (lit "\000\001\377"))
     = Ok (cell_bytes [Byte.x00; Byte.x01; Byte.xff])
  /\ (forall data,
         restorable printable data = true ->
         escape_decode (cell_str (octal_escape printable data))
         = Ok (cell_bytes data))
  /\ (forall data,
         existsb (Byte.eqb backslash) data = false ->
         escape_decode (cell_str (octal_escape printable data))
         = Ok (cell_bytes data)).
Proof.
  exact (@read_table_decodes_bytes
           sample_check_output sample_decode unit sample_Popen unit unit
           (lit "mdb-export") (lit "mdb-schema")
           (sample_read_csv (Ok (DataFrame docs_rows_frame)))
           (lit "db.mdb") (lit "Docs") tt (sample_kwargs None None None)
           (scrape (schema_ddl sample_dump))
           [(lit "Id", np_int_); (lit "Body", np_bytes_); (lit "Stamp", np_str_)]
           tt printable docs_rows
           eq_refl eq_refl eq_refl eq_refl eq_refl eq_refl eq_refl
           docs_rows_typed).
Defined.

(** C8 as stated fails: decoding is no left inverse of the escaping.  The
    export command escapes the non-printable bytes, so it writes the
    backslash as itself, and binary content of the four bytes backslash, 1,
    0, 1 is exported as the text of an octal escape; the post-pass decodes
    it to the single byte 41 (the letter A), not to the content. *)
Lemma backslash_content_not_restored :
  restorable printable backslash_content = false
  /\ octal_escape printable backslash_content = lit "\101"
  /\ escape_decode (cell_str (octal_escape printable backslash_content))
     = Ok (cell_bytes [Byte.x41])
  /\ sample_read_table (Ok (DataFrame backslash_frame)) (lit "Docs")
                       (sample_kwargs None None None)
     = Ok (DataFrame
             [(lit "Id", [cell_other (lit "1")]);
              (lit "Body", [cell_bytes [Byte.x41]]);
              (lit "Stamp", [cell_str (lit "01/01/20 00:00:00")])])
  /\ sample_read_table (Ok (DataFrame backslash_frame)) (lit "Docs")
                       (sample_kwargs None None None)
     <> Ok (DataFrame (map (fun c => (fst c, decoded_cells (snd c)))
                           backslash_docs)).
Proof.
  repeat split; try reflexivity. intros H. vm_compute in H. discriminate H.
Qed.

(** * Further properties *)

(** ** Table lister *)

Lemma split_from_nonempty (sep : ascii) (s cur : str) : split_from sep cur s <> [].
Proof.
  revert cur. induction s as [|c s IH]; intros cur; simpl; [discriminate|].
  destruct (Ascii.eqb c sep); [discriminate | apply IH].
Qed.

Lemma join_cons (sep p : str) (rest : list str) :
  rest <> [] -> join sep (p :: rest) = p ++ sep ++ join sep rest.
Proof. destruct rest; [congruence | reflexivity]. Qed.

(** Joining the pieces with the separator gives the text back. *)
Lemma join_split_from (sep : ascii) (s cur : str) :
  join [sep] (split_from sep cur s) = rev cur ++ s.
Proof.
  revert cur. induction s as [|c s IH]; intros cur; simpl.
  - now rewrite app_nil_r.
  - destruct (Ascii.eqb c sep) eqn:E.
    + apply Ascii.eqb_eq in E. subst c.
      rewrite join_cons by apply split_from_nonempty. now rewrite IH.
    + rewrite IH. simpl. now rewrite <- app_assoc.
Qed.

Lemma split_from_no_sep (sep : ascii) (s cur piece : str) :
  ~ In sep cur -> In piece (split_from sep cur s) -> ~ In sep piece.
Proof.
  revert cur. induction s as [|c s IH]; intros cur Hcur; simpl.
  - intros [<-|[]]. now rewrite <- in_rev.
  - destruct (Ascii.eqb c sep) eqn:E.
    + intros [<-|Hin]; [now rewrite <- in_rev|].
      apply (IH [] (fun H => H) Hin).
    + apply IH. intros [->|H]; [|tauto]. now rewrite Ascii.eqb_refl in E.
Qed.

Lemma split_from_whole (sep : ascii) (s cur : str) :
  ~ In sep s -> split_from sep cur s = [rev cur ++ s].
Proof.
  revert cur. induction s as [|c s IH]; intros cur Hs; simpl.
  - now rewrite app_nil_r.
  - destruct (Ascii.eqb c sep) eqn:E.
    + apply Ascii.eqb_eq in E. subst c. exfalso. apply Hs. now left.
    + rewrite IH by (intro H; apply Hs; now right).
      simpl. now rewrite <- app_assoc.
Qed.

Lemma not_In_char (c : ascii) (s : str) :
  existsb (Ascii.eqb c) s = false -> ~ In c s.
Proof.
  intros H Hin. assert (existsb (Ascii.eqb c) s = true); [|congruence].
  apply existsb_exists. exists c. split; [assumption | apply Ascii.eqb_refl].
Qed.

Lemma lstrip_all_space (s : str) : forallb isspace s = true -> lstrip s = [].
Proof.
  induction s as [|c s IH]; simpl; [reflexivity|].
  intros H. apply andb_true_iff in H. destruct H as [Hc Hs]. now rewrite Hc, IH.
Qed.

(** X1. When the listing command and the decoding succeed, [list_tables]
    returns at least one name, no name holds a space, and the names joined
    by single spaces are the output with its surrounding whitespace
    removed; so a table name with a space in it comes back in pieces. *)
Theorem list_tables_pieces
        (check_output : list str -> result bytes)
        (decode : bytes -> str -> result str)
        (mdb_tables rdb_file encoding : str) (output : bytes) (tables : str) :
  check_output [mdb_tables; rdb_file] = Ok output ->
  decode output encoding = Ok tables ->
  exists names,
    list_tables check_output decode mdb_tables rdb_file encoding = Ok names
    /\ names <> []
    /\ join [" "%char] names = strip tables
    /\ forall name, In name names -> ~ In " "%char name.
Proof.
  intros Hout Hdec. exists (split (strip tables) " "%char).
  split; [|split; [|split]].
  - unfold list_tables. rewrite Hout. cbn [bind]. now rewrite Hdec.
  - apply split_from_nonempty.
  - apply (join_split_from " "%char (strip tables) []).
  - intros name Hin. eapply split_from_no_sep; [|exact Hin]. intros [].
Qed.

Lemma list_tables_pieces_witness :
  exists names,
    sample_list_tables sample_tables = Ok names
    /\ names <> []
    /\ join [" "%char] names = lit "Foo Docs"
    /\ forall name, In name names -> ~ In " "%char name.
Proof.
  exact (@list_tables_pieces sample_check_output (fun _ _ => Ok sample_tables)
           (lit "mdb-tables") (lit "db.mdb") (lit "latin-1") [] sample_tables
           eq_refl eq_refl).
Defined.

(** X2. For a database without tables, where the listing command prints
    nothing but whitespace, [list_tables] returns the list holding one empty
    name, not the empty list. *)
Theorem list_tables_blank
        (check_output : list str -> result bytes)
        (decode : bytes -> str -> result str)
        (mdb_tables rdb_file encoding : str) (output : bytes) (tables : str) :
  check_output [mdb_tables; rdb_file] = Ok output ->
  decode output encoding = Ok tables ->
  forallb isspace tables = true ->
  list_tables check_output decode mdb_tables rdb_file encoding = Ok [[]].
Proof.
  intros Hout Hdec Hblank. unfold list_tables. rewrite Hout. cbn [bind].
  rewrite Hdec. cbn [bind]. unfold strip.
  now rewrite lstrip_all_space.
Qed.

Lemma list_tables_blank_witness : sample_list_tables [nl] = Ok [[]].
Proof.
  exact (@list_tables_blank sample_check_output (fun _ _ => Ok [nl])
           (lit "mdb-tables") (lit "db.mdb") (lit "latin-1") [] [nl]
           eq_refl eq_refl eq_refl).
Defined.

(** X3. Only the space separates names: when the output, trimmed, holds no
    space (one table, or names separated by line feeds or tabs), the whole
    trimmed output comes back as a single name. *)
Theorem list_tables_single
        (check_output : list str -> result bytes)
        (decode : bytes -> str -> result str)
        (mdb_tables rdb_file encoding : str) (output : bytes) (tables : str) :
  check_output [mdb_tables; rdb_file] = Ok output ->
  decode output encoding = Ok tables ->
  ~ In " "%char (strip tables) ->
  list_tables check_output decode mdb_tables rdb_file encoding
  = Ok [strip tables].
Proof.
  intros Hout Hdec Hno. unfold list_tables. rewrite Hout. cbn [bind].
  rewrite Hdec. cbn [bind]. unfold split.
  now rewrite split_from_whole.
Qed.

Lemma list_tables_single_witness :
  sample_list_tables (lit "Foo" ++ nl :: lit "Docs" ++ [nl])
  = Ok [lit "Foo" ++ nl :: lit "Docs"].
Proof.
  exact (@list_tables_single sample_check_output
           (fun _ _ => Ok (lit "Foo" ++ nl :: lit "Docs" ++ [nl]))
           (lit "mdb-tables") (lit "db.mdb") (lit "latin-1") []
           (lit "Foo" ++ nl :: lit "Docs" ++ [nl]) eq_refl eq_refl
           (not_In_char " "%char (lit "Foo" ++ nl :: lit "Docs") eq_refl)).
Defined.

(** ** What a scraped schema holds *)

Lemma lstrip_head (s : str) :
  match lstrip s with [] => True | c :: _ => isspace c = false end.
Proof.
  induction s as [|c s IH]; simpl; [exact I|].
  destruct (isspace c) eqn:E; [exact IH | exact E].
Qed.

Lemma lstrip_lstrip (s : str) : lstrip (lstrip s) = lstrip s.
Proof.
  pose proof (lstrip_head s) as H. destruct (lstrip s) as [|c r]; [reflexivity|].
  simpl. now rewrite H.
Qed.

Lemma lstrip_snoc (a : str) (c : ascii) :
  isspace c = false -> lstrip (a ++ [c]) = lstrip a ++ [c].
Proof.
  intros Hc. induction a as [|x a IH]; simpl; [now rewrite Hc|].
  destruct (isspace x); [exact IH | reflexivity].
Qed.

Lemma rstrip_cons (c : ascii) (r : str) :
  isspace c = false -> rstrip (c :: r) = c :: rstrip r.
Proof.
  intros Hc. unfold rstrip. simpl. rewrite lstrip_snoc by assumption.
  rewrite rev_app_distr. reflexivity.
Qed.

Lemma rstrip_rstrip (s : str) : rstrip (rstrip s) = rstrip s.
Proof. unfold rstrip. now rewrite rev_involutive, lstrip_lstrip. Qed.

(** Trimming a trimmed text changes nothing. *)
Lemma strip_strip (s : str) : strip (strip s) = strip s.
Proof.
  unfold strip. pose proof (lstrip_head s) as H.
  destruct (lstrip s) as [|c r]; [reflexivity|].
  rewrite rstrip_cons by assumption. simpl. rewrite H.
  rewrite rstrip_cons by assumption. now rewrite rstrip_rstrip.
Qed.

Lemma span_fst_In (p : ascii -> bool) (s a b : str) (c : ascii) :
  span p s = (a, b) -> In c a -> In c s.
Proof.
  intros H Hin. apply span_parts in H. destruct H as [-> _].
  apply in_or_app. now left.
Qed.

Lemma span_snd_In (p : ascii -> bool) (s a b : str) (c : ascii) :
  span p s = (a, b) -> In c b -> In c s.
Proof.
  intros H Hin. apply span_parts in H. destruct H as [-> _].
  apply in_or_app. now right.
Qed.

(** Group 2 of a match of [DEF_RE] is part of the line. *)
Lemma DEF_RE_match_descr (line name descr : str) (c : ascii) :
  DEF_RE_match line = Some (name, descr) -> In c descr -> In c line.
Proof.
  unfold DEF_RE_match.
  destruct (span isspace line) as [indent s1] eqn:E1.
  destruct s1 as [|x s2]; [discriminate|].
  destruct (Ascii.eqb x "["%char) eqn:Ex;
    [apply Ascii.eqb_eq in Ex; subst x
    | destruct x as [[] [] [] [] [] [] [] []]; try discriminate Ex; discriminate].
  destruct (span is_word s2) as [nm s3] eqn:E2.
  destruct nm as [|n nm]; [discriminate|].
  destruct s3 as [|d s4]; [discriminate|].
  destruct (Ascii.eqb d "]"%char) eqn:Ed;
    [apply Ascii.eqb_eq in Ed; subst d
    | destruct d as [[] [] [] [] [] [] [] []]; try discriminate Ed; discriminate].
  destruct (span isspace s4) as [ws s5] eqn:E3.
  destruct (span not_newline s5) as [ds s6] eqn:E4.
  destruct (at_end s6); [|discriminate].
  intros H Hin. inversion H; subst.
  eapply span_snd_In; [exact E1|]. right.
  eapply span_snd_In; [exact E2|]. right.
  eapply span_snd_In; [exact E3|].
  eapply span_fst_In; [exact E4 | exact Hin].
Qed.

Lemma forallb_In_impl (A : Type) (p : A -> bool) (l l' : list A) :
  (forall x, In x l' -> In x l) -> forallb p l = true -> forallb p l' = true.
Proof.
  intros Hsub. rewrite !forallb_forall. auto.
Qed.

Lemma Forall_dict_set (V : Type) (P : str * V -> Prop) (d : dict V) (k : str) (v : V) :
  Forall P d -> P (k, v) -> Forall P (dict_set d k v).
Proof.
  intros Hd Hkv. induction d as [|[k' v'] d IH]; simpl.
  - now constructor.
  - inversion Hd as [|? ? Hhd Htl]; subst.
    destruct (str_eqb k' k) eqn:E.
    + apply str_eqb_eq in E. subst k'. now constructor.
    + constructor; [assumption | now apply IH].
Qed.

Lemma add_def_clean (defs : dict str) (line : str) :
  forallb in_line line = true ->
  Forall clean_column defs -> Forall clean_column (add_def defs line).
Proof.
  intros Hline Hdefs. unfold add_def.
  destruct (DEF_RE_match line) as [[name descr]|] eqn:E; [|assumption].
  apply Forall_dict_set; [assumption|].
  destruct (DEF_RE_match_inv _ E) as [indent [rest [_ [_ [Hne Hw]]]]].
  unfold clean_column. cbn [fst snd]. repeat split; try assumption.
  - apply no_comma_left.
  - apply strip_strip.
  - eapply forallb_In_impl; [|exact Hline]. intros x Hx.
    apply In_strip in Hx. unfold remove_commas in Hx.
    apply filter_In in Hx. destruct Hx as [Hx _].
    eapply DEF_RE_match_descr; [exact E | exact Hx].
Qed.

Lemma extract_defs_clean (defs_str : str) : Forall clean_column (_extract_defs defs_str).
Proof.
  unfold _extract_defs.
  assert (H : forall lines acc,
             (forall l, In l lines -> forallb in_line l = true) ->
             Forall clean_column acc ->
             Forall clean_column (fold_left add_def lines acc)).
  { induction lines as [|l lines IH]; intros acc Hl Hacc; [exact Hacc|].
    cbn [fold_left]. apply IH.
    - intros l' Hin. apply Hl. now right.
    - apply add_def_clean; [apply Hl; now left | exact Hacc]. }
  apply H; [|constructor]. intros l Hin. now apply splitlines_in_line in Hin.
Qed.

Lemma TABLE_RE_match_name (s table defs rest : str) :
  TABLE_RE_match s = Some (table, defs, rest) ->
  table <> [] /\ forallb is_word table = true.
Proof.
  unfold TABLE_RE_match.
  destruct (after_literal (lit "CREATE TABLE [") s) as [s1|]; [|discriminate].
  destruct (span is_word s1) as [t s2] eqn:E2.
  destruct t as [|t0 t]; [discriminate|].
  destruct s2 as [|c s3]; [discriminate|].
  destruct (Ascii.eqb c "]"%char) eqn:Ec;
    [apply Ascii.eqb_eq in Ec; subst c
    | destruct c as [[] [] [] [] [] [] [] []]; try discriminate Ec; discriminate].
  destruct (span isspace s3) as [ws s4].
  destruct ws as [|w0 ws]; [discriminate|].
  destruct s4 as [|d s5]; [discriminate|].
  destruct (Ascii.eqb d "("%char) eqn:Ed;
    [apply Ascii.eqb_eq in Ed; subst d
    | destruct d as [[] [] [] [] [] [] [] []]; try discriminate Ed; discriminate].
  destruct (until_close s5) as [[g r]|]; [|discriminate].
  intros [= <- <- <-]. apply span_parts in E2. destruct E2 as [_ [Hw _]].
  split; [discriminate | exact Hw].
Qed.

Lemma findall_fuel_names (fuel : nat) :
  forall s,
    Forall (fun td => fst td <> [] /\ forallb is_word (fst td) = true)
           (findall_fuel fuel s).
Proof.
  induction fuel as [|fuel IH]; intros s; cbn [findall_fuel]; [constructor|].
  destruct (TABLE_RE_match s) as [[[table defs] rest]|] eqn:E.
  - constructor; [|apply IH]. cbn [fst]. eapply TABLE_RE_match_name. exact E.
  - destruct s; [constructor | apply IH].
Qed.

Lemma In_keys_dict_set (V : Type) (d : dict V) (k x : str) (v : V) :
  In x (keys (dict_set d k v)) -> x = k \/ In x (keys d).
Proof.
  induction d as [|[k' v'] d IH]; simpl.
  - intros [<-|[]]. now left.
  - destruct (str_eqb k' k); simpl; intros [H|H]; tauto.
Qed.

(** Assignment keeps the keys of a dict distinct. *)
Lemma NoDup_dict_set (V : Type) (d : dict V) (k : str) (v : V) :
  NoDup (keys d) -> NoDup (keys (dict_set d k v)).
Proof.
  induction d as [|[k' v'] d IH]; simpl; intros Hnd.
  - constructor; [tauto | constructor].
  - inversion Hnd as [|? ? Hk Hd]; subst.
    destruct (str_eqb k' k) eqn:E; simpl; [now constructor|].
    constructor; [|now apply IH]. intros Hin.
    apply In_keys_dict_set in Hin. destruct Hin as [->|Hin]; [|tauto].
    now rewrite str_eqb_refl in E.
Qed.

Lemma fold_dict_set_invariant (A V : Type) (P : dict V -> Prop)
      (f : dict V -> A -> dict V) (l : list A) (acc : dict V) :
  (forall d x, P d -> P (f d x)) -> P acc -> P (fold_left f l acc).
Proof.
  intros Hf. revert acc. induction l as [|x l IH]; intros acc Hacc; [exact Hacc|].
  cbn [fold_left]. apply IH. now apply Hf.
Qed.

Lemma extract_defs_is_dict (defs_str : str) : is_dict (_extract_defs defs_str) = true.
Proof.
  apply distinct_NoDup. unfold _extract_defs.
  apply (@fold_dict_set_invariant _ _ (fun d => NoDup (keys d))); [|constructor].
  intros d line Hd. unfold add_def.
  destruct (DEF_RE_match line) as [[name descr]|]; [|exact Hd].
  now apply NoDup_dict_set.
Qed.

Lemma scrape_is_dict (ddl : str) : is_dict (scrape ddl) = true.
Proof.
  apply distinct_NoDup. unfold scrape.
  apply (@fold_dict_set_invariant _ _ (fun d => NoDup (keys d))); [|constructor].
  intros d td Hd. now apply NoDup_dict_set.
Qed.

Lemma dict_get_In (V : Type) (d : dict V) (k : str) (v : V) :
  dict_get d k = Some v -> In (k, v) d.
Proof.
  induction d as [|[k' v'] d IH]; simpl; [discriminate|].
  destruct (str_eqb k' k) eqn:E.
  - apply str_eqb_eq in E. intros [= ->]. subst. now left.
  - intros H. right. now apply IH.
Qed.

(** Every table of a scraped schema has a name of word characters and
    definitions read by [_extract_defs]. *)
Lemma scrape_entries (ddl : str) :
  Forall (fun td =>
            (fst td <> [] /\ forallb is_word (fst td) = true)
            /\ exists defs_str, snd td = _extract_defs defs_str)
         (scrape ddl).
Proof.
  unfold scrape, TABLE_RE_findall.
  pose proof (findall_fuel_names (S (List.length ddl)) ddl) as Hnames.
  revert Hnames. generalize (findall_fuel (S (List.length ddl)) ddl).
  intros found Hfound.
  assert (H : forall acc : dict (dict str),
             Forall (fun td =>
                       (fst td <> [] /\ forallb is_word (fst td) = true)
                       /\ exists defs_str, snd td = _extract_defs defs_str) acc ->
             Forall (fun td =>
                       (fst td <> [] /\ forallb is_word (fst td) = true)
                       /\ exists defs_str, snd td = _extract_defs defs_str)
                    (fold_left
                       (fun schema td =>
                          dict_set schema (fst td) (_extract_defs (snd td)))
                       found acc)).
  { induction Hfound as [|[t d] found Ht _ IH]; intros acc Hacc; [exact Hacc|].
    cbn [fold_left fst snd]. apply IH. apply Forall_dict_set; [exact Hacc|].
    cbn [fst snd] in *. split; [exact Ht | now exists d]. }
  apply H. constructor.
Qed.

Lemma scraped_table (ddl tbl : str) (defs : dict str) :
  dict_get (scrape ddl) tbl = Some defs ->
  (tbl <> [] /\ forallb is_word tbl = true)
  /\ exists defs_str, defs = _extract_defs defs_str.
Proof.
  intros Hget. apply dict_get_In in Hget.
  pose proof (scrape_entries ddl) as H. rewrite Forall_forall in H.
  exact (H _ Hget).
Qed.

(** X4. In the schema scraped from any text, every table name and every
    column name is a non-empty run of word characters, and every declared
    type holds no comma, no line boundary and no whitespace at its ends. *)
Theorem scraped_names_and_types (ddl tbl column declared : str) (defs : dict str) :
  dict_get (scrape ddl) tbl = Some defs ->
  dict_get defs column = Some declared ->
  (tbl <> [] /\ forallb is_word tbl = true)
  /\ (column <> [] /\ forallb is_word column = true)
  /\ ~ In ","%char declared
  /\ strip declared = declared
  /\ forallb in_line declared = true.
Proof.
  intros Htbl Hcol. destruct (scraped_table _ _ Htbl) as [Hname [defs_str ->]].
  split; [exact Hname|]. apply dict_get_In in Hcol.
  pose proof (extract_defs_clean defs_str) as H. rewrite Forall_forall in H.
  destruct (H _ Hcol) as [Hne [Hw [Hc [Hs Hl]]]]. cbn [fst snd] in *.
  repeat split; assumption.
Qed.

Lemma scraped_names_and_types_witness :
  (lit "Docs" <> [] /\ forallb is_word (lit "Docs") = true)
  /\ (lit "Body" <> [] /\ forallb is_word (lit "Body") = true)
  /\ ~ In ","%char (lit "OLE (255)")
  /\ strip (lit "OLE (255)") = lit "OLE (255)"
  /\ forallb in_line (lit "OLE (255)") = true.
Proof.
  exact (@scraped_names_and_types (schema_ddl sample_dump) (lit "Docs")
           (lit "Body") (lit "OLE (255)")
           [(lit "Id", lit "Long Integer"); (lit "Body", lit "OLE (255)");
            (lit "Stamp", lit "DateTime")] eq_refl eq_refl).
Defined.

Lemma extract_dtype_numpy (declared : str) (t : dtype) :
  _extract_dtype declared = Some t -> is_numpy_type t = true.
Proof.
  unfold _extract_dtype.
  repeat match goal with
         | |- context [if ?b then _ else _] => destruct b
         end; intros [= <-]; reflexivity.
Qed.

Lemma typed_columns_numpy (implicit_string : bool) (defs : dict str) :
  Forall (fun kv => is_numpy_type (snd kv) = true)
         (typed_columns implicit_string defs).
Proof.
  unfold typed_columns. induction defs as [|[c t] defs IH]; [constructor|].
  cbn [flat_map fst snd]. unfold column_type at 1.
  destruct (_extract_dtype t) as [d|] eqn:E.
  - constructor; [|exact IH]. cbn [snd]. eapply extract_dtype_numpy. exact E.
  - destruct implicit_string; [constructor; [reflexivity | exact IH] | exact IH].
Qed.

(** X5. The typed schema of the schema scraped from any text needs no
    further condition: it has the same tables in the same order, a table's
    hints are the table's columns of a recognised type (with
    [implicit_string], all its columns) in their order, and every hint is
    one of the five numpy types. *)
Theorem scraped_schema_typed (ddl : str) (implicit_string : bool)
        (tbl : str) (defs : dict str) :
  dict_get (scrape ddl) tbl = Some defs ->
  keys (to_pandas_schema (scrape ddl) implicit_string) = keys (scrape ddl)
  /\ exists typed,
      dict_get (to_pandas_schema (scrape ddl) implicit_string) tbl = Some typed
      /\ keys typed
         = keys (filter (fun item =>
                           implicit_string
                           || match _extract_dtype (snd item) with
                              | Some _ => true
                              | None => false
                              end) defs)
      /\ (implicit_string = true -> keys typed = keys defs)
      /\ forall column t,
          dict_get typed column = Some t -> is_numpy_type t = true.
Proof.
  intros Hget. pose proof (scrape_is_dict ddl) as Hs.
  destruct (scraped_table _ _ Hget) as [_ [defs_str Hdefs]].
  assert (Hd : is_dict defs = true) by (subst defs; apply extract_defs_is_dict).
  split.
  - apply distinct_NoDup in Hs. rewrite to_pandas_schema_map by assumption.
    apply (keys_map_values
             (fun d : dict str => fold_left (add_column implicit_string) d [])).
  - exists (typed_columns implicit_string defs). split; [|split; [|split]].
    + now apply to_pandas_schema_get.
    + rewrite typed_columns_filter. f_equal. apply filter_ext.
      intros [c t]. unfold column_type. simpl.
      destruct (_extract_dtype t); [now rewrite orb_true_r|].
      now destruct implicit_string.
    + intros ->. rewrite typed_columns_filter. f_equal.
      apply forallb_filter_id. apply forallb_forall. intros [c t] _.
      unfold column_type. simpl. now destruct (_extract_dtype t).
    + intros column t Hcol. apply dict_get_In in Hcol.
      pose proof (typed_columns_numpy implicit_string defs) as H.
      rewrite Forall_forall in H. exact (H _ Hcol).
Qed.

Lemma scraped_schema_typed_witness :
  keys (to_pandas_schema (scrape (schema_ddl sample_dump)) false)
  = [lit "Foo"; lit "Docs"]
  /\ exists typed,
      dict_get (to_pandas_schema (scrape (schema_ddl sample_dump)) false)
               (lit "Docs") = Some typed
      /\ keys typed = [lit "Id"; lit "Body"]
      /\ (false = true -> keys typed = [lit "Id"; lit "Body"; lit "Stamp"])
      /\ forall column t,
          dict_get typed column = Some t -> is_numpy_type t = true.
Proof.
  exact (@scraped_schema_typed (schema_ddl sample_dump) false (lit "Docs")
           [(lit "Id", lit "Long Integer"); (lit "Body", lit "OLE (255)");
            (lit "Stamp", lit "DateTime")] eq_refl).
Defined.

(** ** Names that are not words, text without blocks, repeated tables *)

(** X6. A line whose bracketed column name is empty or holds a character
    that is not a word character (a space, a hyphen, a dot) is skipped: the
    column gets no entry in the Table Definition. *)
Theorem column_name_not_a_word (defs : dict str) (indent w rest : str) (c : ascii) :
  forallb isspace indent = true ->
  forallb is_word w = true ->
  is_word c = false ->
  w = [] \/ c <> "]"%char ->
  add_def defs (indent ++ "["%char :: w ++ c :: rest) = defs.
Proof.
  intros Hi Hw Hc Hname. unfold add_def, DEF_RE_match.
  rewrite span_stop by (assumption || reflexivity).
  rewrite span_stop by assumption.
  destruct w as [|w0 w]; [reflexivity|].
  destruct Hname as [Hname|Hname]; [discriminate|].
  destruct c as [[] [] [] [] [] [] [] []]; try reflexivity; congruence.
Qed.

Lemma column_name_not_a_word_witness :
  add_def [(lit "Id", lit "Long Integer")]
          (tab :: lit "[First Name]" ++ tab :: lit "Text (50)")
  = [(lit "Id", lit "Long Integer")].
Proof.
  exact (@column_name_not_a_word [(lit "Id", lit "Long Integer")] [tab]
           (lit "First") (lit "Name]" ++ tab :: lit "Text (50)") " "%char
           eq_refl eq_refl eq_refl
           (or_intror (fun H : " "%char = "]"%char =>
                         eq_ind " "%char
                                (fun x => if Ascii.eqb x " "%char then True else False)
                                I _ H))).
Defined.

Lemma no_opener_after (a b : str) :
  forallb (fun c => negb (Ascii.eqb c "C"%char)) a = true ->
  no_opener b -> no_opener (a ++ b).
Proof.
  intros Ha Hb x y follow Heq Hy.
  apply app_eq_app in Heq. destruct Heq as [l [[-> ->]|[-> ->]]].
  - destruct l as [|c l].
    + cbn [app] in *. now apply (Hb [] b follow).
    + rewrite forallb_app in Ha. apply andb_true_iff in Ha.
      destruct Ha as [_ Ha]. cbn [forallb] in Ha.
      apply andb_true_iff in Ha. destruct Ha as [Hc _].
      apply negb_true_iff in Hc. cbn. now rewrite Hc.
  - now apply (Hb l y follow).
Qed.

Lemma TABLE_RE_match_bad_name (w follow : str) (c : ascii) :
  forallb is_word w = true ->
  is_word c = false ->
  w = [] \/ c <> "]"%char ->
  TABLE_RE_match (lit "CREATE TABLE [" ++ w ++ c :: follow) = None.
Proof.
  intros Hw Hc Hname. unfold TABLE_RE_match. rewrite after_literal_app.
  rewrite span_stop by assumption.
  destruct w as [|w0 w]; [reflexivity|].
  destruct Hname as [Hname|Hname]; [discriminate|].
  destruct c as [[] [] [] [] [] [] [] []]; try reflexivity; congruence.
Qed.

(** X7. A block whose table name is empty or holds a character that is not
    a word character (as in [Order Details]) is passed over whole: the
    schema scraped from a text that opens with it is the schema of what
    follows, provided no other block opens inside it. *)
Theorem table_name_not_a_word (w tail follow : str) (c : ascii) :
  forallb is_word w = true ->
  is_word c = false ->
  w = [] \/ c <> "]"%char ->
  no_opener (w ++ c :: tail) ->
  scrape (lit "CREATE TABLE [" ++ w ++ c :: tail ++ follow) = scrape follow.
Proof.
  intros Hw Hc Hname Hno. unfold scrape. f_equal.
  rewrite TABLE_RE_findall_step, TABLE_RE_match_bad_name by assumption.
  change (lit "CREATE TABLE [") with ("C"%char :: lit "REATE TABLE [").
  cbn [app].
  assert (E : lit "REATE TABLE [" ++ w ++ c :: tail ++ follow
              = (lit "REATE TABLE [" ++ w ++ c :: tail) ++ follow)
    by now rewrite <- !app_assoc.
  rewrite E. apply findall_skip_gap.
  apply no_opener_after; [reflexivity | assumption].
Qed.

Lemma table_name_not_a_word_witness :
  scrape (lit "CREATE TABLE [Order Details]" ++ nl :: lit " (" ++ nl
          :: tab :: lit "[Id]" ++ tab :: tab :: lit "Long Integer" ++ nl
          :: lit ");" ++ nl :: scenario_dump)
  = [(lit "Foo", [(lit "A", lit "Long Integer"); (lit "B", lit "Text (50)")])].
Proof.
  exact (@table_name_not_a_word (lit "Order") order_details_rest scenario_dump
           " "%char eq_refl eq_refl
           (or_intror (fun H : " "%char = "]"%char =>
                         eq_ind " "%char
                                (fun x => if Ascii.eqb x " "%char then True else False)
                                I _ H))
           (@no_opener_without_C (lit "Order" ++ " "%char :: order_details_rest)
                                 eq_refl)).
Defined.

(** X8. Text in which no block opens (an empty dump, comments only, other
    statements) is scraped to the empty schema, without error. *)
Theorem read_schema_without_blocks
        (check_output : list str -> result bytes)
        (decode : bytes -> str -> result str)
        (mdb_schema rdb_file encoding : str) (output : bytes) (text : str) :
  check_output [mdb_schema; rdb_file] = Ok output ->
  decode output encoding = Ok text ->
  no_opener (schema_ddl text) ->
  read_schema check_output decode mdb_schema rdb_file encoding = Ok [].
Proof.
  intros Hout Hdec Hno. unfold read_schema. rewrite Hout. cbn [bind].
  rewrite Hdec. cbn [bind]. unfold scrape.
  rewrite <- (app_nil_r (schema_ddl text)).
  now rewrite findall_skip_gap.
Qed.

Lemma read_schema_without_blocks_witness :
  read_schema sample_check_output
              (fun _ _ => Ok (lit "-- no tables" ++ nl :: nl :: lit "ALTER TABLE x;"))
              (lit "mdb-schema") (lit "db.mdb") (lit "utf8")
  = Ok [].
Proof.
  exact (@read_schema_without_blocks sample_check_output
           (fun _ _ => Ok (lit "-- no tables" ++ nl :: nl :: lit "ALTER TABLE x;"))
           (lit "mdb-schema") (lit "db.mdb") (lit "utf8") []
           (lit "-- no tables" ++ nl :: nl :: lit "ALTER TABLE x;")
           eq_refl eq_refl
           (@no_opener_without_C (lit "ALTER TABLE x;") eq_refl)).
Defined.

Lemma fold_dict_set_other (A V : Type) (key : A -> str) (val : A -> V)
      (k : str) (l : list A) :
  (forall y, In y l -> key y <> k) ->
  forall d,
    dict_get (fold_left (fun d y => dict_set d (key y) (val y)) l d) k
    = dict_get d k.
Proof.
  induction l as [|y l IH]; intros Hl d; [reflexivity|].
  cbn [fold_left]. rewrite IH by (intros z Hz; apply Hl; now right).
  rewrite dict_get_set.
  destruct (str_eqb (key y) k) eqn:E; [|reflexivity].
  apply str_eqb_eq in E. exfalso. apply (Hl y); [now left | exact E].
Qed.

(** X9. When several well-formed blocks define the same table, the schema
    holds the definition of the last of them, whole: the columns of the
    earlier blocks are not merged in. *)
Theorem repeated_table_last_wins
        (before after : list (str * table_block)) (gap : str)
        (b : table_block) (trailer : str) :
  Forall (fun it => no_opener (fst it) /\ wf_block (snd it) = true)
         (before ++ (gap, b) :: after) ->
  no_opener trailer ->
  (forall it, In it after -> tbl_name (snd it) <> tbl_name b) ->
  dict_get (scrape (dump_text (before ++ (gap, b) :: after) trailer))
           (tbl_name b)
  = Some (block_defs b).
Proof.
  intros Hitems Htrailer Hafter. unfold scrape.
  rewrite findall_dump by assumption.
  rewrite map_app, fold_left_app. cbn [map fold_left fst snd].
  rewrite (@fold_dict_set_other _ _ (fun td : str * str => fst td)
             (fun td => _extract_defs (snd td))).
  - rewrite dict_get_set, str_eqb_refl. f_equal.
    apply extract_defs_block.
    rewrite Forall_forall in Hitems.
    apply (Hitems (gap, b)). apply in_or_app. right. now left.
  - intros td Hin. apply in_map_iff in Hin.
    destruct Hin as [it [<- Hit]]. cbn [fst]. now apply Hafter.
Qed.

Lemma twice_items_well_formed :
  Forall (fun it => no_opener (fst it) /\ wf_block (snd it) = true) twice_items.
Proof.
  repeat constructor; cbn [fst]; now apply no_opener_without_C.
Qed.

Lemma repeated_table_last_wins_witness :
  dict_get (scrape (dump_text twice_items [nl])) (lit "Foo")
  = Some [(lit "Z", lit "Double")].
Proof.
  exact (@repeated_table_last_wins
           [([], foo_block); ([nl], docs_block)] [] [nl] foo_again [nl]
           twice_items_well_formed
           (@no_opener_without_C [nl] eq_refl)
           (fun it (H : In it []) => match H with end)).
Defined.

(** ** What the post-pass keeps *)

Lemma mapM_escape_decode_bytes (cells cells' : list cell) :
  mapM escape_decode cells = Ok cells' ->
  List.length cells' = List.length cells
  /\ forallb is_bytes_cell cells' = true.
Proof.
  revert cells'. induction cells as [|x cells IH]; intros cells'; cbn [mapM].
  - intros [= <-]. now split.
  - destruct (escape_decode x) as [y|e] eqn:Ex; [|discriminate]. cbn [bind].
    destruct (mapM escape_decode cells) as [ys|e]; [|discriminate]. cbn [bind].
    intros [= <-]. destruct (IH ys eq_refl) as [Hlen Hb]. cbn.
    rewrite Hlen, Hb. split; [reflexivity|].
    destruct x as [s|b|r]; cbn [escape_decode] in Ex.
    + destruct (decode_escapes (encode_utf8 s)); [|discriminate].
      now inversion Ex.
    + destruct (decode_escapes b); [|discriminate]. now inversion Ex.
    + discriminate.
Qed.

Lemma column_kept_refl (c : str * list cell) : column_kept c c.
Proof. unfold column_kept. auto. Qed.

Lemma column_kept_trans (a b c : str * list cell) :
  column_kept a b -> column_kept b c -> column_kept a c.
Proof.
  unfold column_kept. intros [H1 [H2 H3]] [H4 [H5 H6]].
  split; [congruence|]. split; [congruence|].
  destruct H6 as [H6|H6]; [|now right].
  rewrite H6. exact H3.
Qed.

Lemma Forall2_refl_kept (df : frame) : Forall2 column_kept df df.
Proof. induction df; constructor; [apply column_kept_refl | assumption]. Qed.

Lemma Forall2_trans_kept (a b c : frame) :
  Forall2 column_kept a b -> Forall2 column_kept b c -> Forall2 column_kept a c.
Proof.
  intros Hab. revert c. induction Hab as [|x y a b Hxy _ IH]; intros c Hbc.
  - inversion Hbc. constructor.
  - inversion Hbc as [|? z ? c' Hyz Hbc']; subst. constructor.
    + eapply column_kept_trans; eassumption.
    + now apply IH.
Qed.

Lemma loc_map_kept (column : str) (df df' : frame) :
  loc_map escape_decode column df = Ok df' -> Forall2 column_kept df df'.
Proof.
  revert df'. induction df as [|[label cells] df IH]; intros df'; cbn [loc_map].
  - intros [= <-]. constructor.
  - destruct (str_eqb label column).
    + destruct (mapM escape_decode cells) as [cells'|e] eqn:Em; [|discriminate].
      cbn [bind]. destruct (loc_map escape_decode column df) as [rest|e];
        [|discriminate]. cbn [bind]. intros [= <-].
      constructor; [|now apply IH].
      apply mapM_escape_decode_bytes in Em. destruct Em as [Hlen Hb].
      unfold column_kept. cbn [fst snd]. auto.
    + cbn [bind]. destruct (loc_map escape_decode column df) as [rest|e];
        [|discriminate]. cbn [bind]. intros [= <-].
      constructor; [apply column_kept_refl | now apply IH].
Qed.

Lemma decode_columns_kept (dtypes : option (dict dtype)) (labels : list str) :
  forall df df',
    decode_columns dtypes labels df = Ok df' -> Forall2 column_kept df df'.
Proof.
  induction labels as [|column labels IH]; intros df df'; cbn [decode_columns].
  - intros [= <-]. apply Forall2_refl_kept.
  - destruct (match dtypes with
              | Some d => getitem d column
              | None => Raise (UnboundLocalError (lit "dtypes"))
              end) as [t|e]; [|discriminate]. cbn [bind].
    destruct (is_np_bytes_ t).
    + destruct (loc_map escape_decode column df) as [df1|e] eqn:E1;
        [|discriminate]. cbn [bind]. intros H.
      eapply Forall2_trans_kept; [eapply loc_map_kept; exact E1 | now apply IH].
    + cbn [bind]. apply IH.
Qed.

(** Columns with a hint that is not Bytes are passed through. *)
Lemma decode_columns_plain (d : dict dtype) (labels : list str) (df : frame) :
  forallb (fun label =>
             match dict_get d label with
             | Some t => negb (is_np_bytes_ t)
             | None => false
             end) labels = true ->
  decode_columns (Some d) labels df = Ok df.
Proof.
  induction labels as [|l labels IH]; intros H; [reflexivity|].
  cbn [forallb] in H. apply andb_true_iff in H. destruct H as [Hl H].
  cbn [decode_columns]. unfold getitem.
  destruct (dict_get d l) as [t|]; [|discriminate Hl]. cbn [bind].
  apply negb_true_iff in Hl. rewrite Hl. cbn [bind]. now apply IH.
Qed.

(** A label without a hint makes the post-pass raise. *)
Lemma decode_columns_unhinted (d : dict dtype) (label : str) (labels : list str) :
  In label labels -> dict_get d label = None ->
  forall df, exists e, decode_columns (Some d) labels df = Raise e.
Proof.
  intros Hin Hnone. induction labels as [|l labels IH]; [contradiction|].
  intros df. cbn [decode_columns]. unfold getitem.
  destruct (dict_get d l) as [t|] eqn:El; [|now eexists]. cbn [bind].
  destruct (if is_np_bytes_ t then loc_map escape_decode l df else Ok df)
    as [df'|e]; [|now eexists]. cbn [bind].
  apply IH. destruct Hin as [->|Hin]; [congruence | exact Hin].
Qed.

Lemma dict_get_update_other (V : Type) (other : dict V) (k : str) :
  dict_get other k = None ->
  forall d, dict_get (dict_update d other) k = dict_get d k.
Proof.
  unfold dict_update.
  induction other as [|[k0 v0] other IH]; intros Hk d; [reflexivity|].
  cbn [fold_left fst snd]. simpl in Hk.
  destruct (str_eqb k0 k) eqn:E; [discriminate|].
  rewrite IH by assumption. now rewrite dict_get_set, E.
Qed.

(** ** The table reader as a whole *)

Section TableReaderMore.

Variable check_output : list str -> result bytes.
Variable decode : bytes -> str -> result str.
Variable pipe : Type.
Variable Popen : list str -> result pipe.
Variable csv_args : Type.
Variable csv_options : Type.
Variable mdb_export : str.
Variable mdb_schema : str.
Variable read_csv : pipe -> csv_args -> kwargs csv_options -> result parsed.

Local Abbreviation the_schema rdb_file kw :=
  (read_schema check_output decode mdb_schema rdb_file
               (popped (schema_encoding kw) (lit "utf8"))).

Local Abbreviation the_table rdb_file table_name args kw :=
  (read_table check_output decode Popen mdb_export mdb_schema read_csv
              rdb_file table_name args kw).

Local Abbreviation export_cmd rdb_file table_name :=
  [mdb_export; lit "-b"; lit "octal"; rdb_file; table_name].


(** X11. A table that is returned has the columns of the table as parsed:
    the same labels in the same order, the same number of cells in each
    column, and in each column either the very cells that were parsed or
    cells of bytes only. *)
Theorem read_table_keeps_shape (rdb_file table_name : str) (args : csv_args)
        (kw : kwargs csv_options) (final : frame) :
  the_table rdb_file table_name args kw = Ok (DataFrame final) ->
  exists proc kw' df,
    Popen (export_cmd rdb_file table_name) = Ok proc
    /\ read_csv proc args kw' = Ok (DataFrame df)
    /\ Forall2 column_kept df final
    /\ map fst final = map fst df.
Proof.
  unfold read_table.
  destruct (hints check_output decode mdb_schema rdb_file table_name kw)
    as [[dtypes kw']|e]; [|discriminate]. cbn [bind].
  destruct (Popen (export_cmd rdb_file table_name)) as [proc|e] eqn:Ep;
    [|discriminate]. cbn [bind].
  destruct (read_csv proc args kw') as [[df|chunks']|e] eqn:Ec; try discriminate.
  cbn [bind post_pass].
  destruct (decode_columns dtypes (map fst df) df) as [df'|e] eqn:Ed;
    [|discriminate]. cbn [bind]. intros [= <-].
  exists proc, kw', df. apply decode_columns_kept in Ed.
  repeat split; try assumption.
  clear - Ed. induction Ed as [|x y a b [Hxy _] _ IH]; [reflexivity|].
  cbn [map]. now rewrite Hxy, IH.
Qed.

(** X12. When every column of the parsed table has a hint and no hint is
    Bytes, the call returns the table exactly as [pd.read_csv] gave it. *)
Theorem read_table_without_bytes (rdb_file table_name : str) (args : csv_args)
        (kw : kwargs csv_options) (schema : dict (dict str))
        (inferred : dict dtype) (proc : pipe) (df : frame) :
  popped (converters_from_schema kw) true = true ->
  the_schema rdb_file kw = Ok schema ->
  dict_get (to_pandas_schema schema (popped (implicit_string kw) true)) table_name
  = Some inferred ->
  Popen (export_cmd rdb_file table_name) = Ok proc ->
  read_csv proc args
           (with_hints kw (dict_update inferred (popped (kw_dtype kw) [])))
  = Ok (DataFrame df) ->
  forallb (fun label =>
             match dict_get (dict_update inferred (popped (kw_dtype kw) []))
                            label with
             | Some t => negb (is_np_bytes_ t)
             | None => false
             end) (map fst df) = true ->
  the_table rdb_file table_name args kw = Ok (DataFrame df).
Proof.
  intros Hconv Hschema Hget Hproc Hcsv Hplain. unfold read_table.
  rewrite (hints_inferred _ _ _ _ _ _ Hconv Hschema Hget). cbn [bind].
  rewrite Hproc. cbn [bind]. rewrite Hcsv. cbn [bind post_pass].
  now rewrite decode_columns_plain.
Qed.

(** X13. With hints inferred from the schema, a parsed table with a column
    whose label is empty or not made of word characters (a name with a
    space, say) and for which the caller gave no [dtype] makes the call
    fail: the scraper never records such a column, so it has no hint. *)
Theorem read_table_label_not_a_word (rdb_file table_name : str) (args : csv_args)
        (kw : kwargs csv_options) (schema : dict (dict str))
        (inferred : dict dtype) (proc : pipe) (df : frame) (label : str) :
  popped (converters_from_schema kw) true = true ->
  the_schema rdb_file kw = Ok schema ->
  dict_get (to_pandas_schema schema (popped (implicit_string kw) true)) table_name
  = Some inferred ->
  Popen (export_cmd rdb_file table_name) = Ok proc ->
  read_csv proc args
           (with_hints kw (dict_update inferred (popped (kw_dtype kw) [])))
  = Ok (DataFrame df) ->
  In label (map fst df) ->
  nonempty_str label && forallb is_word label = false ->
  dict_get (popped (kw_dtype kw) []) label = None ->
  exists e, the_table rdb_file table_name args kw = Raise e.
Proof.
  intros Hconv Hschema Hget Hproc Hcsv Hin Hbad Hover.
  assert (Hnone : dict_get inferred label = None).
  { unfold read_schema in Hschema.
    destruct (check_output [mdb_schema; rdb_file]) as [output|e];
      [|discriminate]. cbn [bind] in Hschema.
    destruct (decode output (popped (schema_encoding kw) (lit "utf8")))
      as [text|e]; [|discriminate]. cbn [bind] in Hschema.
    injection Hschema as <-.
    destruct (dict_get (scrape (schema_ddl text)) table_name) as [defs|] eqn:Et.
    - destruct (scraped_table _ _ Et) as [_ [defs_str ->]].
      rewrite (@to_pandas_schema_get _ _ _ _ (scrape_is_dict _) Et
                 (extract_defs_is_dict _)) in Hget.
      injection Hget as <-. apply dict_get_None. intros Hk.
      rewrite typed_columns_filter in Hk. apply keys_filter_incl in Hk.
      unfold keys in Hk. apply in_map_iff in Hk.
      destruct Hk as [[c t] [Hc Hk]]. cbn [fst] in Hc. subst c.
      pose proof (extract_defs_clean defs_str) as H.
      rewrite Forall_forall in H. destruct (H _ Hk) as [Hne [Hw _]].
      cbn [fst] in *. rewrite Hw in Hbad.
      destruct label; [congruence | discriminate].
    - rewrite to_pandas_schema_absent in Hget by assumption. discriminate. }
  unfold read_table.
  rewrite (hints_inferred _ _ _ _ _ _ Hconv Hschema Hget). cbn [bind].
  rewrite Hproc. cbn [bind]. rewrite Hcsv. cbn [bind post_pass].
  destruct (@decode_columns_unhinted
              (dict_update inferred (popped (kw_dtype kw) [])) label
              (map fst df) Hin) with (df := df) as [e He].
  - now rewrite dict_get_update_other.
  - exists e. now rewrite He.
Qed.

End TableReaderMore.

(** X14. With [converters_from_schema] false the schema command and its
    decoder play no part: the call gives the same outcome whatever they
    would do. *)
Theorem read_table_without_schema_command
        (check_output check_output' : list str -> result bytes)
        (decode decode' : bytes -> str -> result str)
        (pipe : Type) (Popen : list str -> result pipe)
        (csv_args csv_options : Type) (mdb_export mdb_schema : str)
        (read_csv : pipe -> csv_args -> kwargs csv_options -> result parsed)
        (rdb_file table_name : str) (args : csv_args)
        (kw : kwargs csv_options) :
  converters_from_schema kw = Some false ->
  read_table check_output decode Popen mdb_export mdb_schema read_csv
             rdb_file table_name args kw
  = read_table check_output' decode' Popen mdb_export mdb_schema read_csv
               rdb_file table_name args kw.
Proof.
  intros Hconv. unfold read_table, hints. now rewrite Hconv.
Qed.

Lemma read_table_keeps_shape_witness :
  exists proc kw' df,
    sample_Popen [lit "mdb-export"; lit "-b"; lit "octal"; lit "db.mdb"; lit "Docs"]
    = Ok proc
    /\ sample_read_csv (Ok (DataFrame docs_frame)) proc tt kw'
       = Ok (DataFrame df)
    /\ Forall2 column_kept df
               [(lit "Id", [cell_other (lit "1")]);
                (lit "Body", [cell_bytes [Byte.x00; Byte.x01; Byte.xff]]);
                (lit "Stamp", [cell_str (lit "01/01/20 00:00:00")])]
    /\ [lit "Id"; lit "Body"; lit "Stamp"] = map fst df.
Proof.
  exact (@read_table_keeps_shape
           sample_check_output sample_decode unit sample_Popen unit unit
           (lit "mdb-export") (lit "mdb-schema")
           (sample_read_csv (Ok (DataFrame docs_frame)))
           (lit "db.mdb") (lit "Docs") tt (sample_kwargs None None None)
           [(lit "Id", [cell_other (lit "1")]);
            (lit "Body", [cell_bytes [Byte.x00; Byte.x01; Byte.xff]]);
            (lit "Stamp", [cell_str (lit "01/01/20 00:00:00")])]
           eq_refl).
Defined.

Lemma read_table_without_bytes_witness :
  sample_read_table (Ok (DataFrame foo_frame)) (lit "Foo")
                    (sample_kwargs None None None)
  = Ok (DataFrame foo_frame).
Proof.
  exact (@read_table_without_bytes
           sample_check_output sample_decode unit sample_Popen unit unit
           (lit "mdb-export") (lit "mdb-schema")
           (sample_read_csv (Ok (DataFrame foo_frame)))
           (lit "db.mdb") (lit "Foo") tt (sample_kwargs None None None)
           (scrape (schema_ddl sample_dump))
           [(lit "A", np_int_); (lit "B", np_str_)] tt foo_frame
           eq_refl eq_refl eq_refl eq_refl eq_refl eq_refl).
Defined.

Lemma read_table_label_not_a_word_witness :
  exists e,
    sample_read_table (Ok (DataFrame people_frame)) (lit "Foo")
                      (sample_kwargs None None None)
    = Raise e.
Proof.
  exact (@read_table_label_not_a_word
           sample_check_output sample_decode unit sample_Popen unit unit
           (lit "mdb-export") (lit "mdb-schema")
           (sample_read_csv (Ok (DataFrame people_frame)))
           (lit "db.mdb") (lit "Foo") tt (sample_kwargs None None None)
           (scrape (schema_ddl sample_dump))
           [(lit "A", np_int_); (lit "B", np_str_)] tt people_frame
           (lit "First Name")
           eq_refl eq_refl eq_refl eq_refl eq_refl
           (or_intror (or_introl eq_refl)) eq_refl eq_refl).
Defined.

Lemma read_table_without_schema_command_witness :
  sample_read_table (Ok (DataFrame [])) (lit "Foo")
                    (sample_kwargs (Some false) None None)
  = read_table (fun _ => Raise CalledProcessError)
               (fun _ _ => Raise UnicodeDecodeError) sample_Popen
               (lit "mdb-export") (lit "mdb-schema")
               (sample_read_csv (Ok (DataFrame [])))
               (lit "db.mdb") (lit "Foo") tt
               (sample_kwargs (Some false) None None).
Proof.
  exact (@read_table_without_schema_command
           sample_check_output (fun _ => Raise CalledProcessError)
           sample_decode (fun _ _ => Raise UnicodeDecodeError)
           unit sample_Popen unit unit (lit "mdb-export") (lit "mdb-schema")
           (sample_read_csv (Ok (DataFrame [])))
           (lit "db.mdb") (lit "Foo") tt
           (sample_kwargs (Some false) None None) eq_refl).
Defined.

(** ** The filtered dump text *)

Lemma splitlines_from_last (line cur : str) :
  forallb in_line line = true -> cur ++ line <> [] ->
  splitlines_from cur line = [rev cur ++ line].
Proof.
  revert cur. induction line as [|c line IH]; intros cur Hl Hne.
  - rewrite app_nil_r in *. cbn [splitlines_from].
    destruct cur; [congruence | reflexivity].
  - cbn [forallb] in Hl. apply andb_true_iff in Hl. destruct Hl as [Hc Hl].
    cbn [splitlines_from]. unfold in_line in Hc. apply negb_true_iff in Hc.
    rewrite Hc. rewrite IH; [|assumption|discriminate].
    cbn [rev]. now rewrite <- app_assoc.
Qed.

(** Lines without a boundary, none of them empty, are the lines of their
    join. *)
Lemma splitlines_join (lines : list str) :
  Forall (fun l => forallb in_line l = true /\ l <> []) lines ->
  splitlines (join [nl] lines) = lines.
Proof.
  unfold splitlines. induction 1 as [|l lines [Hl Hne] Hrest IH]; [reflexivity|].
  destruct lines as [|l2 lines].
  - cbn [join]. rewrite splitlines_from_last; [reflexivity | assumption |].
    exact Hne.
  - rewrite join_cons by discriminate. cbn [app].
    rewrite splitlines_from_line by assumption. cbn [rev app]. now rewrite IH.
Qed.

(** X15. The filtered text of [read_schema] holds exactly the lines of the
    dump that are neither empty nor start with a dash, in their order; so
    filtering it again changes nothing. *)
Theorem schema_ddl_lines (text : str) :
  splitlines (schema_ddl text)
  = filter (fun l => nonempty_str l && negb (startswith l (lit "-")))
           (splitlines text)
  /\ schema_ddl (schema_ddl text) = schema_ddl text.
Proof.
  assert (H : splitlines (schema_ddl text)
              = filter (fun l => nonempty_str l && negb (startswith l (lit "-")))
                       (splitlines text)).
  { unfold schema_ddl. apply splitlines_join. apply Forall_forall.
    intros l Hl. apply filter_In in Hl. destruct Hl as [Hin Hkeep].
    split; [now apply splitlines_in_line in Hin|].
    destruct l; [discriminate Hkeep | discriminate]. }
  split; [exact H|].
  unfold schema_ddl at 1. rewrite H. unfold schema_ddl. f_equal.
  apply forallb_filter_id. apply forallb_forall. intros l Hl.
  apply filter_In in Hl. tauto.
Qed.

Lemma splitlines_from_crlf (line cur rest : str) :
  forallb in_line line = true ->
  splitlines_from cur (line ++ "013"%char :: nl :: rest)
  = (rev cur ++ line) :: splitlines_from [] rest.
Proof.
  revert cur. induction line as [|c line IH]; intros cur Hl.
  - rewrite app_nil_r. reflexivity.
  - cbn [forallb] in Hl. apply andb_true_iff in Hl. destruct Hl as [Hc Hl].
    cbn [app splitlines_from]. unfold in_line in Hc.
    apply negb_true_iff in Hc. rewrite Hc.
    rewrite IH by assumption. cbn [rev]. now rewrite <- app_assoc.
Qed.

Lemma splitlines_join_crlf (lines : list str) :
  Forall (fun l => forallb in_line l = true) lines ->
  splitlines (join ["013"%char; nl] lines) = splitlines (join [nl] lines).
Proof.
  unfold splitlines. induction 1 as [|l lines Hl Hrest IH]; [reflexivity|].
  destruct lines as [|l2 lines]; [reflexivity|].
  rewrite (join_cons ["013"%char; nl]), (join_cons [nl]) by discriminate.
  cbn [app].
  rewrite splitlines_from_crlf, splitlines_from_line by assumption.
  now rewrite IH.
Qed.

(** X16. Line endings do not matter to the scraper: a dump whose lines are
    joined by carriage return and line feed gives the same filtered text,
    hence the same schema, as the dump joined by line feeds. *)
Theorem schema_ddl_crlf (lines : list str) :
  Forall (fun l => forallb in_line l = true) lines ->
  schema_ddl (join ["013"%char; nl] lines) = schema_ddl (join [nl] lines)
  /\ scrape (schema_ddl (join ["013"%char; nl] lines))
     = scrape (schema_ddl (join [nl] lines)).
Proof.
  intros H.
  assert (E : schema_ddl (join ["013"%char; nl] lines)
              = schema_ddl (join [nl] lines))
    by (unfold schema_ddl; now rewrite splitlines_join_crlf).
  split; [exact E | now rewrite E].
Qed.

Lemma lines_in_line (lines : list str) :
  forallb (forallb in_line) lines = true ->
  Forall (fun l => forallb in_line l = true) lines.
Proof.
  intros H. apply Forall_forall. intros l Hl.
  rewrite forallb_forall in H. now apply H.
Qed.

Lemma schema_ddl_crlf_witness :
  schema_ddl (join ["013"%char; nl]
                   [lit "-- x"; lit "CREATE TABLE [Foo] ("; tab :: lit "[A] Long";
                    lit ");"])
  = lit "CREATE TABLE [Foo] (" ++ nl :: tab :: lit "[A] Long" ++ nl :: lit ");"
  /\ scrape (schema_ddl
               (join ["013"%char; nl]
                     [lit "-- x"; lit "CREATE TABLE [Foo] ("; tab :: lit "[A] Long";
                      lit ");"]))
     = [(lit "Foo", [(lit "A", lit "Long")])].
Proof.
  exact (@schema_ddl_crlf
           [lit "-- x"; lit "CREATE TABLE [Foo] ("; tab :: lit "[A] Long"; lit ");"]
           (@lines_in_line
              [lit "-- x"; lit "CREATE TABLE [Foo] ("; tab :: lit "[A] Long";
               lit ");"] eq_refl)).
Defined.

(** ** Declared types with a size specification *)

Lemma startswith_app (s t p : str) :
  startswith s p = true -> startswith (s ++ t) p = true.
Proof.
  revert s. induction p as [|a p IH]; intros s H; [reflexivity|].
  destruct s as [|b s]; [discriminate H|]. cbn [app startswith] in *.
  apply andb_true_iff in H. destruct H as [Hb Hs].
  now rewrite Hb, IH.
Qed.

(** X17. What follows a recognised declared type does not matter: once the
    Type Mapper gives a type for a text, it gives the same type for the text
    followed by anything (a size specification, a constraint). *)
Theorem extract_dtype_suffix (declared more : str) (t : dtype) :
  _extract_dtype declared = Some t ->
  _extract_dtype (declared ++ more) = Some t.
Proof.
  unfold _extract_dtype, lower. rewrite map_app.
  generalize (map lower_char more). generalize (map lower_char declared).
  clear declared more. intros x y.
  change (lit "double") with ("d"%char :: lit "ouble").
  change (lit "long") with ("l"%char :: lit "ong").
  change (lit "bool") with ("b"%char :: lit "ool").
  change (lit "text") with ("t"%char :: lit "ext").
  change (lit "memo") with ("m"%char :: lit "emo").
  change (lit "ole") with ("o"%char :: lit "le").
  destruct x as [|c x]; [discriminate|]. cbn [app startswith].
  destruct (Ascii.eqb c "d"%char) eqn:Ed; [apply Ascii.eqb_eq in Ed; subst c|];
    [|destruct (Ascii.eqb c "l"%char) eqn:El;
      [apply Ascii.eqb_eq in El; subst c|];
      [|destruct (Ascii.eqb c "b"%char) eqn:Eb;
        [apply Ascii.eqb_eq in Eb; subst c|];
        [|destruct (Ascii.eqb c "t"%char) eqn:Et;
          [apply Ascii.eqb_eq in Et; subst c|];
          [|destruct (Ascii.eqb c "m"%char) eqn:Em;
            [apply Ascii.eqb_eq in Em; subst c|];
            [|destruct (Ascii.eqb c "o"%char) eqn:Eo;
              [apply Ascii.eqb_eq in Eo; subst c | discriminate]]]]]];
    cbn [Ascii.eqb Bool.eqb andb orb];
    match goal with
    | |- context [startswith x ?p] =>
        destruct (startswith x p) eqn:Es;
        [rewrite (startswith_app _ y _ Es); exact (fun H => H) | discriminate]
    end.
Qed.

Lemma extract_dtype_suffix_witness :
  _extract_dtype (lit "Text" ++ lit " (255) NOT NULL") = Some np_str_.
Proof.
  exact (@extract_dtype_suffix (lit "Text") (lit " (255) NOT NULL") np_str_
           eq_refl).
Defined.

(** ** Cells without escapes *)

Lemma decode_escapes_plain (s : bytes) :
  forallb (fun b => negb (Byte.eqb b backslash)) s = true ->
  decode_escapes s = Ok s.
Proof.
  induction s as [|b s IH]; intros H; [reflexivity|].
  cbn [forallb] in H. apply andb_true_iff in H. destruct H as [Hb H].
  cbn [decode_escapes]. apply negb_true_iff in Hb. rewrite Hb.
  now rewrite IH.
Qed.

Lemma utf8_char_no_backslash (c : ascii) :
  negb (Ascii.eqb c "\"%char) = true ->
  forallb (fun b => negb (Byte.eqb b backslash)) (utf8_char c) = true.
Proof.
  destruct c as [[] [] [] [] [] [] [] []]; intro H; try discriminate H;
    reflexivity.
Qed.

(** X18. A text cell of a Bytes column that holds no backslash is turned
    into its UTF-8 bytes, nothing else: without a backslash there is no
    escape to undo. *)
Theorem escape_decode_plain_text (s : str) :
  forallb (fun c => negb (Ascii.eqb c "\"%char)) s = true ->
  escape_decode (cell_str s) = Ok (cell_bytes (encode_utf8 s)).
Proof.
  intros H. cbn [escape_decode]. rewrite decode_escapes_plain; [reflexivity|].
  unfold encode_utf8. apply forallb_flat_map.
  eapply forallb_impl; [|exact H]. exact utf8_char_no_backslash.
Qed.

Lemma escape_decode_plain_text_witness :
  escape_decode (cell_str (lit "abc"))
  = Ok (cell_bytes [Byte.x61; Byte.x62; Byte.x63]).
Proof.
  exact (@escape_decode_plain_text (lit "abc") eq_refl).
Defined.

(** ** Cells that cannot be decoded *)

Lemma mapM_raises (A B : Type) (f : A -> result B) (l : list A) (x : A)
      (e0 : exception) :
  In x l -> f x = Raise e0 -> exists e, mapM f l = Raise e.
Proof.
  intros Hin Hx. induction l as [|a l IH]; [contradiction|].
  cbn [mapM]. destruct (f a) as [b|e] eqn:Ea; [|now eexists]. cbn [bind].
  destruct Hin as [->|Hin]; [congruence|].
  destruct (IH Hin) as [e He]. rewrite He. now eexists.
Qed.

Lemma loc_map_raises (f : cell -> result cell) (label : str) (df : frame)
      (cells : list cell) (e0 : exception) :
  In (label, cells) df -> mapM f cells = Raise e0 ->
  exists e, loc_map f label df = Raise e.
Proof.
  intros Hin Hf. induction df as [|[l c] df IH]; [contradiction|].
  cbn [loc_map]. destruct Hin as [Heq|Hin].
  - inversion Heq; subst. rewrite str_eqb_refl, Hf. now eexists.
  - destruct (if str_eqb l label then mapM f c else Ok c) as [c'|e];
      [|now eexists]. cbn [bind].
    destruct (IH Hin) as [e He]. rewrite He. now eexists.
Qed.

Lemma loc_map_other (f : cell -> result cell) (column label : str)
      (df df' : frame) (cells : list cell) :
  column <> label -> loc_map f column df = Ok df' ->
  In (label, cells) df -> In (label, cells) df'.
Proof.
  intros Hne. revert df'. induction df as [|[l c] df IH]; intros df'.
  - intros _ [].
  - cbn [loc_map]. destruct (str_eqb l column) eqn:E.
    + apply str_eqb_eq in E. subst l.
      destruct (mapM f c) as [c'|e]; [|discriminate]. cbn [bind].
      destruct (loc_map f column df) as [rest|e]; [|discriminate]. cbn [bind].
      intros [= <-] [Heq|Hin]; [inversion Heq; congruence|].
      right. now apply IH.
    + cbn [bind]. destruct (loc_map f column df) as [rest|e]; [|discriminate].
      cbn [bind]. intros [= <-] [Heq|Hin]; [now left|]. right. now apply IH.
Qed.

Lemma decode_columns_bad_cell (d : dict dtype) (label : str) (cells : list cell)
      (e0 : exception) (labels : list str) :
  In label labels ->
  dict_get d label = Some np_bytes_ ->
  mapM escape_decode cells = Raise e0 ->
  forall df, In (label, cells) df ->
             exists e, decode_columns (Some d) labels df = Raise e.
Proof.
  intros Hin Hd Hcells. induction labels as [|l labels IH]; [contradiction|].
  intros df Hdf. cbn [decode_columns]. unfold getitem.
  destruct (dict_get d l) as [t|] eqn:El; [|now eexists]. cbn [bind].
  destruct (str_eqb l label) eqn:E.
  - apply str_eqb_eq in E. subst l. rewrite Hd in El. injection El as <-.
    cbn [is_np_bytes_].
    destruct (loc_map_raises escape_decode _ _ _ Hdf Hcells) as [e He].
    rewrite He. now eexists.
  - apply str_eqb_neq in E.
    destruct Hin as [->|Hin]; [congruence|].
    destruct (is_np_bytes_ t).
    + destruct (loc_map escape_decode l df) as [df'|e] eqn:El'; [|now eexists].
      cbn [bind]. apply IH; [assumption|].
      eapply loc_map_other; eassumption.
    + cbn [bind]. now apply IH.
Qed.

(** X19. There is no partial result: when some cell of a column hinted as
    Bytes cannot be decoded (it ends in a lone backslash, has a broken [\x]
    escape, or is not text), the whole call fails, whatever the other cells
    and columns hold. *)
Theorem read_table_bad_cell
        (check_output : list str -> result bytes)
        (decode : bytes -> str -> result str)
        (pipe : Type) (Popen : list str -> result pipe)
        (csv_args csv_options : Type) (mdb_export mdb_schema : str)
        (read_csv : pipe -> csv_args -> kwargs csv_options -> result parsed)
        (rdb_file table_name : str) (args : csv_args)
        (kw : kwargs csv_options) (schema : dict (dict str))
        (inferred : dict dtype) (proc : pipe) (df : frame)
        (label : str) (cells : list cell) (x : cell) (e0 : exception) :
  popped (converters_from_schema kw) true = true ->
  read_schema check_output decode mdb_schema rdb_file
              (popped (schema_encoding kw) (lit "utf8")) = Ok schema ->
  dict_get (to_pandas_schema schema (popped (implicit_string kw) true)) table_name
  = Some inferred ->
  Popen [mdb_export; lit "-b"; lit "octal"; rdb_file; table_name] = Ok proc ->
  read_csv proc args
           (with_hints kw (dict_update inferred (popped (kw_dtype kw) [])))
  = Ok (DataFrame df) ->
  In (label, cells) df ->
  dict_get (dict_update inferred (popped (kw_dtype kw) [])) label
  = Some np_bytes_ ->
  In x cells ->
  escape_decode x = Raise e0 ->
  exists e,
    read_table check_output decode Popen mdb_export mdb_schema read_csv
               rdb_file table_name args kw
    = Raise e.
Proof.
  intros Hconv Hschema Hget Hproc Hcsv Hcol Hbytes Hx He0.
  unfold read_table.
  rewrite (hints_inferred _ _ _ _ _ _ Hconv Hschema Hget). cbn [bind].
  rewrite Hproc. cbn [bind]. rewrite Hcsv. cbn [bind post_pass].
  destruct (mapM_raises escape_decode _ _ Hx He0) as [e1 He1].
  destruct (@decode_columns_bad_cell
              (dict_update inferred (popped (kw_dtype kw) [])) label cells e1
              (map fst df)) with (df := df) as [e He]; try assumption.
  - apply (in_map fst) in Hcol. exact Hcol.
  - exists e. now rewrite He.
Qed.

Lemma read_table_bad_cell_witness :
  exists e,
    sample_read_table (Ok (DataFrame docs_frame_bad_cell)) (lit "Docs")
                      (sample_kwargs None None None)
    = Raise e.
Proof.
  exact (@read_table_bad_cell
           sample_check_output sample_decode unit sample_Popen unit unit
           (lit "mdb-export") (lit "mdb-schema")
           (sample_read_csv (Ok (DataFrame docs_frame_bad_cell)))
           (lit "db.mdb") (lit "Docs") tt (sample_kwargs None None None)
           (scrape (schema_ddl sample_dump))
           [(lit "Id", np_int_); (lit "Body", np_bytes_); (lit "Stamp", np_str_)]
           tt docs_frame_bad_cell (lit "Body")
           [cell_str (lit "\000\001\377"); cell_str (lit "abc\")]
           (cell_str (lit "abc\")) ValueError
           eq_refl eq_refl eq_refl eq_refl eq_refl
           (or_intror (or_introl eq_refl)) eq_refl
           (or_intror (or_introl eq_refl)) eq_refl).
Defined.
